(** * iotapkg: the object codec framework, embedded in Rocq

    A shallow embedding of the Go sources
      - serializable.go  (ArrayRules, LexicalOrderValidator,
                          DeserializeArrayOfObjects, DeserializeObject)
      - signature.go     (SignatureSelector, WOTSSignature, Ed25519Signature)
      - error.go         (sentinel errors, length checks, and, in its second
                          half, TransactionSelector and UnsignedTransaction)
    followed by the properties of the codec.

    Conventions.
      - A Go [[]byte] is a [list byte]; buffers have capacity equal to their
        length, so a slice expression [data[a:b]] is in range exactly when
        [0 <= a <= b <= len(data)].  A nil slice and an empty slice are both
        [[]] (the code only ever takes [len] of them or appends to them),
        except for the [prev] variable of the lexical order validator, whose
        nil test is modelled with an [option].
      - A Go function returning [(a, b, err)] returns the tuple
        [(a, b, err)] with [err : option error]; [None] is the nil error.
      - A Go function that can panic returns an [outcome]. *)

From Stdlib Require Import ZArith List String Bool Lia.
From Stdlib Require Import Init.Byte.
Import ListNotations.

Local Open Scope string_scope.
Local Open Scope list_scope.
Local Open Scope Z_scope.

(* ------------------------------------------------------------------ *)
(** ** Bytes *)

Definition byte_to_Z (b : byte) : Z := Z.of_N (Byte.to_N b).

(** The Go conversion [byte(x)]: the low eight bits of [x]. *)
Definition byte_of_Z (x : Z) : byte :=
  match Byte.of_N (Z.to_N (x mod 256)) with
  | Some b => b
  | None => x00
  end.

(** [len(s)] as a Go [int]. *)
Definition len {A : Type} (s : list A) : Z := Z.of_nat (List.length s).

(** [bytes.Compare]: lexicographic comparison of two byte strings, bytes
    compared as unsigned numbers; a proper prefix sorts first. *)
Fixpoint bytes_Compare (a b : list byte) : comparison :=
  match a, b with
  | [], [] => Eq
  | [], _ :: _ => Lt
  | _ :: _, [] => Gt
  | x :: a', y :: b' =>
      match Z.compare (byte_to_Z x) (byte_to_Z y) with
      | Eq => bytes_Compare a' b'
      | c => c
      end
  end.

(** [make([]byte, n)] / a zeroed [[n]byte]. *)
Definition zero_bytes (n : nat) : list byte := repeat x00 n.

(** The builtin [copy(dst, src)]: overwrites the first
    [min(len(dst), len(src))] bytes of [dst]; the result is the new content
    of [dst]. *)
Definition copy (dst src : list byte) : list byte :=
  firstn (List.length dst) src ++ skipn (List.length src) dst.

(** The assignment [b[i] = x] to an element in range. *)
Definition store (b : list byte) (i : nat) (x : byte) : list byte :=
  firstn i b ++ x :: skipn (S i) b.

(** [copy(b[off:], src)] seen from [b]. *)
Definition copy_at (b : list byte) (off : nat) (src : list byte) : list byte :=
  firstn off b ++ copy (skipn off b) src.

(* ------------------------------------------------------------------ *)
(** ** Errors

    [errors.New] makes a sentinel; [fmt.Errorf] with one [%w] verb wraps an
    error.  The format string and the remaining arguments are kept as they
    are written in the source. *)

Inductive fmt_arg : Type :=
| ArgInt (n : Z)            (* a %d argument *)
| ArgType (name : string).  (* a %T argument *)

Inductive error : Type :=
| errors_New (text : string)
| fmt_Errorf (format : string) (wrapped : error) (args : list fmt_arg).

Definition fmt_arg_eqb (a b : fmt_arg) : bool :=
  match a, b with
  | ArgInt n, ArgInt m => Z.eqb n m
  | ArgType s, ArgType t => String.eqb s t
  | _, _ => false
  end.

Fixpoint fmt_args_eqb (a b : list fmt_arg) : bool :=
  match a, b with
  | [], [] => true
  | x :: a', y :: b' => fmt_arg_eqb x y && fmt_args_eqb a' b'
  | _, _ => false
  end.

Fixpoint error_eqb (e f : error) : bool :=
  match e, f with
  | errors_New s, errors_New t => String.eqb s t
  | fmt_Errorf s e' a, fmt_Errorf t f' b =>
      String.eqb s t && error_eqb e' f' && fmt_args_eqb a b
  | _, _ => false
  end.

(** [errors.Is(err, target)]: [target] occurs in the chain of [err]. *)
Fixpoint errors_Is (err target : error) : bool :=
  error_eqb err target ||
  match err with
  | errors_New _ => false
  | fmt_Errorf _ wrapped _ => errors_Is wrapped target
  end.

(** The sentinels of error.go. *)
Definition ErrInvalidBytes := errors_New "invalid bytes".
Definition ErrUnknownAddrType := errors_New "unknown address type".
Definition ErrUnknownInputType := errors_New "unknown input type".
Definition ErrUnknownOutputType := errors_New "unknown output type".
Definition ErrUnknownTransactionType := errors_New "unknown transaction type".
Definition ErrUnknownUnlockBlockType := errors_New "unknown unlock block type".
Definition ErrUnknownSignatureType := errors_New "unknown signature type".
Definition ErrDeserializationDataTooSmall :=
  errors_New "not enough data for deserialization".
Definition ErrInputsOrderViolatesLexicalOrder :=
  errors_New "inputs must be in their lexical order (byte wise) when serialized".
Definition ErrOutputsOrderViolatesLexicalOrder :=
  errors_New "outputs must be in their lexical order (byte wise) when serialized".
Definition ErrInputUTXORefsNotUnique :=
  errors_New "inputs must each reference a unique UTXO".
Definition ErrOutputAddrNotUnique :=
  errors_New "outputs must each deposit to a unique address".

Definition checkExactByteLength (exact length : Z) : option error :=
  if negb (length =? exact)
  then Some (fmt_Errorf "%w: data must be at exact %d bytes long but is %d"
               ErrInvalidBytes [ArgInt exact; ArgInt length])
  else None.

Definition checkMinByteLength (min length : Z) : option error :=
  if length <? min
  then Some (fmt_Errorf "%w: data must be at least %d bytes long but is %d"
               ErrInvalidBytes [ArgInt min; ArgInt length])
  else None.

Definition checkMaxByteLength (max length : Z) : option error :=
  if length >? max
  then Some (fmt_Errorf "%w: data must be max %d bytes long but is %d"
               ErrInvalidBytes [ArgInt max; ArgInt length])
  else None.

Definition checkByteLengthRange (min max length : Z) : option error :=
  match checkMinByteLength min length with
  | Some err => Some err
  | None =>
      match checkMaxByteLength max length with
      | Some err => Some err
      | None => None
      end
  end.

(* ------------------------------------------------------------------ *)
(** ** Outcomes: a call returns, or panics *)

Inductive outcome (A : Type) : Type :=
| Returns (a : A)
| Panics (msg : string).
Arguments Returns {A} a.
Arguments Panics {A} msg.

Definition bind {A B : Type} (m : outcome A) (k : A -> outcome B) : outcome B :=
  match m with
  | Returns a => k a
  | Panics msg => Panics msg
  end.

Notation "x <- m ;; k" := (bind m (fun x => k))
  (at level 61, m at next level, right associativity).
Notation "' p <- m ;; k" := (bind m (fun p => k))
  (at level 61, p pattern, m at next level, right associativity).

(** The slice expression [data[lo:]]. *)
Definition slice_from (data : list byte) (lo : Z) : outcome (list byte) :=
  if (0 <=? lo) && (lo <=? len data)
  then Returns (skipn (Z.to_nat lo) data)
  else Panics "slice bounds out of range".

(** The slice expression [data[lo:hi]]. *)
Definition slice (data : list byte) (lo hi : Z) : outcome (list byte) :=
  if (0 <=? lo) && (lo <=? hi) && (hi <=? len data)
  then Returns (firstn (Z.to_nat (hi - lo)) (skipn (Z.to_nat lo) data))
  else Panics "slice bounds out of range".

(* ------------------------------------------------------------------ *)
(** ** Machine integers *)

(** Go's [int] is 64 bits wide here; [wrap_int] brings a mathematical
    result back into its range. *)
Definition wrap_int (z : Z) : Z := (z + 2 ^ 63) mod 2 ^ 64 - 2 ^ 63.

Definition int_add (a b : Z) : Z := wrap_int (a + b).

(** The conversion [int(u)] of a [uint64]. *)
Definition int_of_uint64 (u : Z) : Z := wrap_int u.

(** The conversion [uint64(i)] of an [int]. *)
Definition uint64_of_int (i : Z) : Z := i mod 2 ^ 64.

(* ------------------------------------------------------------------ *)
(** ** Varints *)

Definition MaxVarintLen64 : Z := 10.

(** [binary.PutUvarint] of the Go standard library, given as the bytes it
    writes: seven value bits per byte, least significant group first, the
    high bit set on every byte but the last.  A [uint64] needs at most
    [MaxVarintLen64] bytes, which bounds the loop. *)
Fixpoint PutUvarint_loop (fuel : nat) (x : Z) : list byte :=
  match fuel with
  | O => [byte_of_Z x]
  | S fuel' =>
      if x >=? 128
      then byte_of_Z (Z.lor (Z.land x 255) 128) :: PutUvarint_loop fuel' (Z.shiftr x 7)
      else [byte_of_Z x]
  end.

Definition PutUvarint (x : Z) : list byte :=
  PutUvarint_loop (Z.to_nat MaxVarintLen64) (x mod 2 ^ 64).

Definition ErrVarintMalformed := errors_New "malformed varint".

(** Modelled from the spec: the package's [Uvarint] helper is not among the
    sources.  Section 4.1: each byte holds seven value bits and a
    continuation bit; decoding stops at the first byte without the
    continuation bit; it fails with a too-short condition when the buffer
    ends before a terminating byte, and with a malformed condition when
    more than the maximal width is consumed without termination; it returns
    the value and the exact number of bytes consumed. *)
Fixpoint Uvarint_from (data : list byte) (i : Z) (x : Z) : Z * Z * option error :=
  match data with
  | [] => (0, 0, Some ErrDeserializationDataTooSmall)
  | b :: rest =>
      if MaxVarintLen64 <=? i then (0, 0, Some ErrVarintMalformed)
      else if byte_to_Z b <? 128
      then (Z.lor x (Z.shiftl (byte_to_Z b) (7 * i)) mod 2 ^ 64, i + 1, None)
      else Uvarint_from rest (i + 1)
             (Z.lor x (Z.shiftl (Z.land (byte_to_Z b) 127) (7 * i)))
  end.

Definition Uvarint_model (data : list byte) : Z * Z * option error :=
  Uvarint_from data 0 0.

(* ------------------------------------------------------------------ *)
(** ** serializable.go *)

(** The interface [Serializable].  [M] is the type of the mode argument
    ([DeSerializationMode] in serializable.go, the [skipValidation] flag of
    the unsigned transaction).  [Deserialize] also returns the receiver as the call
    leaves it.  [GoTypeName] is what the [%T] verb prints. *)
Class Serializable (M T : Type) : Type := {
  Deserialize : T -> list byte -> M -> outcome (T * (Z * option error));
  Serialize : T -> M -> outcome (list byte * option error);
  GoTypeName : T -> string
}.

(** A value of interface type: [None] is the nil interface. *)
Definition iface (T : Type) : Type := option T.

Definition Serializables (T : Type) : Type := list (iface T).

Definition nil_dereference : string :=
  "invalid memory address or nil pointer dereference".

Definition DeSerializationMode : Type := Z.
Definition DeSeriModeNoValidation : DeSerializationMode := 0.
Definition DeSeriModePerformValidation : DeSerializationMode := Z.shiftl 1 0.

Definition HasMode (sm mode : DeSerializationMode) : bool :=
  Z.land sm mode =? 1.

Record ArrayRules : Type := {
  Min : Z;
  Max : Z;
  MinErr : error;
  MaxErr : error;
  ElementBytesLexicalOrder : bool;
  ElementBytesLexicalOrderErr : error
}.

Definition CheckBounds (ar : ArrayRules) (count : Z) : option error :=
  if negb (Min ar =? 0) && (count <? Min ar)
  then Some (fmt_Errorf "%w: min is %d but count is %d" (MinErr ar)
               [ArgInt (Min ar); ArgInt count])
  else if negb (Max ar =? 0) && (count >? Max ar)
  then Some (fmt_Errorf "%w: max is %d but count is %d" (MaxErr ar)
               [ArgInt (Max ar); ArgInt count])
  else None.

(** The variables captured by the closure that [LexicalOrderValidator]
    returns.  [prev = None] is the nil slice. *)
Record LexicalOrderState : Type := {
  prev : option (list byte);
  prevIndex : Z
}.

(** The state of a fresh closure: [var prev []byte; var prevIndex int]. *)
Definition LexicalOrderValidator : LexicalOrderState :=
  {| prev := None; prevIndex := 0 |}.

(** One call [f(index, next)] of the closure; [next] is a sub-slice of a
    buffer and so never nil.  Returns the captured variables after the call
    and the error. *)
Definition LexicalOrderFunc (ar : ArrayRules) (st : LexicalOrderState)
    (index : Z) (next : list byte) : LexicalOrderState * option error :=
  match prev st with
  | None => ({| prev := Some next; prevIndex := index |}, None)
  | Some p =>
      match bytes_Compare p next with
      | Gt =>
          (st, Some (fmt_Errorf
                       "%w: element %d should have been before element %d"
                       (ElementBytesLexicalOrderErr ar)
                       [ArgInt index; ArgInt (prevIndex st)]))
      | _ => ({| prev := Some next; prevIndex := index |}, None)
      end
  end.

Section Codec.

Context {M T : Type} `{Serializable M T}.

(** The package's varint reader: value, bytes read, error. *)
Variable Uvarint : list byte -> Z * Z * option error.

Definition SerializableSelectorFunc : Type := Z -> iface T * option error.

Definition DeserializeObject (data : list byte) (deSeriMode : M)
    (serSel : SerializableSelectorFunc)
  : outcome (iface T * Z * option error) :=
  let '(ty, _, err) := Uvarint data in
  match err with
  | Some err =>
      Returns (None, 0,
        Some (fmt_Errorf
          "%w: can not deserialize inner object since type denotation is invalid"
          err []))
  | None =>
      let '(seri, err) := serSel ty in
      match err with
      | Some err => Returns (None, 0, Some err)
      | None =>
          match seri with
          | None => Panics nil_dereference
          | Some seri =>
              '(seri, (seriBytesConsumed, err)) <- Deserialize seri data deSeriMode ;;
              match err with
              | Some err =>
                  Returns (None, 0,
                    Some (fmt_Errorf "unable to deserialize %T: %w" err
                            [ArgType (GoTypeName seri)]))
              | None => Returns (Some seri, seriBytesConsumed, None)
              end
          end
      end
  end.

(** The variables of [DeserializeArrayOfObjects] that its loop updates.
    [lexicalOrderValidator] is [None] for the nil function value,
    otherwise the captured variables of the closure. *)
Record loop_state : Type := {
  lexicalOrderValidator : option LexicalOrderState;
  seris : Serializables T;
  offset : Z
}.

(** How an iteration ends: it falls through to the next one, or a
    [return] statement leaves the function with a result. *)
Inductive loop_control : Type :=
| Next (st : loop_state)
| Return (result : Serializables T * Z * option error).

(** The body of the loop of [DeserializeArrayOfObjects] at index [i];
    [data] is the buffer advanced past the count. *)
Definition DeserializeArrayOfObjects_body (data : list byte) (deSeriMode : M)
    (serSel : SerializableSelectorFunc) (arrayRules : option ArrayRules)
    (i : Z) (st : loop_state) : outcome loop_control :=
  rest <- slice_from data (offset st) ;;
  '(seri, seriBytesConsumed, err) <- DeserializeObject rest deSeriMode serSel ;;
  match err with
  | Some err => Returns (Return ([], 0, Some err))
  | None =>
      (* check lexical order against previous element *)
      match lexicalOrderValidator st, arrayRules with
      | Some lov, Some ar =>
          element <- slice data (offset st)
                       (int_add (offset st) seriBytesConsumed) ;;
          let '(lov, err) := LexicalOrderFunc ar lov i element in
          match err with
          | Some err => Returns (Return ([], 0, Some err))
          | None =>
              Returns (Next {| lexicalOrderValidator := Some lov;
                               seris := seris st ++ [seri];
                               offset := int_add (offset st) seriBytesConsumed |})
          end
      | _, _ =>
          Returns (Next {| lexicalOrderValidator := lexicalOrderValidator st;
                           seris := seris st ++ [seri];
                           offset := int_add (offset st) seriBytesConsumed |})
      end
  end.

(** [for i := ...; i < int(seriCount); i++] with [remaining] iterations
    still to run. *)
Fixpoint DeserializeArrayOfObjects_loop (remaining : nat)
    (data : list byte) (deSeriMode : M) (serSel : SerializableSelectorFunc)
    (arrayRules : option ArrayRules) (i : Z) (st : loop_state)
  : outcome loop_control :=
  match remaining with
  | O => Returns (Next st)
  | S remaining' =>
      c <- DeserializeArrayOfObjects_body data deSeriMode serSel arrayRules i st ;;
      match c with
      | Next st =>
          DeserializeArrayOfObjects_loop remaining' data deSeriMode serSel
            arrayRules (i + 1) st
      | Return result => Returns (Return result)
      end
  end.

(** The loop variables before the first iteration. *)
Definition loop_start (arrayRules : option ArrayRules) : loop_state :=
  {| lexicalOrderValidator :=
       match arrayRules with
       | Some ar =>
           if ElementBytesLexicalOrder ar
           then Some LexicalOrderValidator else None
       | None => None
       end;
     seris := [];
     offset := 0 |}.

Definition DeserializeArrayOfObjects (data : list byte) (deSeriMode : M)
    (serSel : SerializableSelectorFunc) (arrayRules : option ArrayRules)
  : outcome (Serializables T * Z * option error) :=
  let bytesReadTotal := 0 in
  let '(seriCount, seriCountBytesSize, err) := Uvarint data in
  match err with
  | Some err =>
      Returns ([], 0,
        Some (fmt_Errorf "%w: can't read array object length" err []))
  | None =>
      let bytesReadTotal := int_add bytesReadTotal seriCountBytesSize in
      match match arrayRules with
            | Some ar => CheckBounds ar seriCount
            | None => None
            end with
      | Some err => Returns ([], 0, Some err)
      | None =>
          (* advance to objects *)
          data <- slice_from data seriCountBytesSize ;;
          c <- DeserializeArrayOfObjects_loop
                 (Z.to_nat (int_of_uint64 seriCount))
                 data deSeriMode serSel arrayRules 0 (loop_start arrayRules) ;;
          match c with
          | Return result => Returns result
          | Next st =>
              let bytesReadTotal := int_add bytesReadTotal (offset st) in
              Returns (seris st, bytesReadTotal, None)
          end
      end
  end.

(** The loop variables after [k] iterations that all fell through to the
    next one, on the buffer [data] advanced past the count. *)
Inductive runs_to (data : list byte) (deSeriMode : M)
    (serSel : SerializableSelectorFunc) (arrayRules : option ArrayRules)
  : nat -> loop_state -> Prop :=
| runs_to_start :
    runs_to data deSeriMode serSel arrayRules 0 (loop_start arrayRules)
| runs_to_next (k : nat) (st st' : loop_state) :
    runs_to data deSeriMode serSel arrayRules k st ->
    DeserializeArrayOfObjects_body data deSeriMode serSel arrayRules
      (Z.of_nat k) st = Returns (Next st') ->
    runs_to data deSeriMode serSel arrayRules (S k) st'.

End Codec.

(* ------------------------------------------------------------------ *)
(** ** signature.go *)

(** Modelled from the spec: the constant [OneByte] is declared in a file
    that is not among the sources; it is the width of the type byte in the
    layouts of section 6. *)
Definition OneByte : Z := 1.

Definition ed25519_PublicKeySize : Z := 32.
Definition ed25519_SignatureSize : Z := 64.

(** Modelled from the spec: [Ed25519AddressSerializedBytesSize] is declared
    with the address entity, which is not among the sources; section 6 lays
    an Ed25519 address out as [[type:1][pubkey:32]]. *)
Definition Ed25519AddressSerializedBytesSize : Z :=
  OneByte + ed25519_PublicKeySize.

Definition SignatureType : Type := byte.
Definition SignatureWOTS : SignatureType := x00.
Definition SignatureEd25519 : SignatureType := x01.

Definition Ed25519SignatureSerializedBytesSize : Z :=
  OneByte + ed25519_PublicKeySize + ed25519_SignatureSize.

Inductive WOTSSignature : Type := Build_WOTSSignature.

Record Ed25519Signature : Type := {
  PublicKey : list byte;   (* [ed25519.PublicKeySize]byte *)
  Signature : list byte    (* [ed25519.SignatureSize]byte *)
}.

(** The two arrays of an [Ed25519Signature] have their declared sizes. *)
Definition Ed25519Signature_wf (e : Ed25519Signature) : Prop :=
  len (PublicKey e) = ed25519_PublicKeySize /\
  len (Signature e) = ed25519_SignatureSize.

(** The zero value [Ed25519Signature{}]. *)
Definition Ed25519Signature_zero : Ed25519Signature :=
  {| PublicKey := zero_bytes (Z.to_nat ed25519_PublicKeySize);
     Signature := zero_bytes (Z.to_nat ed25519_SignatureSize) |}.

(** The dynamic types a signature interface value can have. *)
Inductive SignatureObject : Type :=
| OfWOTSSignature (w : WOTSSignature)
| OfEd25519Signature (e : Ed25519Signature).

Definition SignatureSelector (typeByte : byte)
  : iface SignatureObject * option error :=
  match typeByte with
  | x00 => (Some (OfWOTSSignature Build_WOTSSignature), None)
  | x01 => (Some (OfEd25519Signature Ed25519Signature_zero), None)
  | _ =>
      (None, Some (fmt_Errorf "%w: type byte %d" ErrUnknownSignatureType
                     [ArgInt (byte_to_Z typeByte)]))
  end.

Definition WOTSSignature_Serialize (w : WOTSSignature)
  : outcome (list byte * option error) :=
  Panics "implement me".

Definition WOTSSignature_Deserialize (w : WOTSSignature) (data : list byte)
  : outcome (WOTSSignature * (Z * option error)) :=
  Panics "implement me".

(** [Deserialize] has a value receiver: [e] is a copy of the object the
    method is called on, and the two [copy] calls write into that copy.  The
    first component of the result is the caller's object after the call. *)
Definition Ed25519Signature_Deserialize (e : Ed25519Signature) (data : list byte)
  : outcome (Ed25519Signature * (Z * option error)) :=
  let target := e in
  (* skip type byte *)
  data <- slice_from data OneByte ;;
  match checkExactByteLength Ed25519SignatureSerializedBytesSize (len data) with
  | Some err => Returns (target, (0, Some err))
  | None =>
      src <- slice data 0 ed25519_PublicKeySize ;;
      let e := {| PublicKey := copy (PublicKey e) src;
                  Signature := Signature e |} in
      src <- slice_from data ed25519_PublicKeySize ;;
      let e := {| PublicKey := PublicKey e;
                  Signature := copy (Signature e) src |} in
      Returns (target, (Ed25519AddressSerializedBytesSize, None))
  end.

Definition Ed25519Signature_Serialize (e : Ed25519Signature)
  : list byte * option error :=
  let b := zero_bytes (Z.to_nat Ed25519AddressSerializedBytesSize) in
  let b := store b 0 SignatureEd25519 in
  let b := copy_at b (Z.to_nat OneByte) (PublicKey e) in
  let b := copy_at b (Z.to_nat (OneByte + ed25519_PublicKeySize)) (Signature e) in
  (b, None).

(* ------------------------------------------------------------------ *)
(** ** error.go, second half: the unsigned transaction *)

Definition TransactionType : Type := byte.
Definition TransactionUnsigned : TransactionType := x00.
Definition TransactionIDLength : Z := 32.

Fixpoint bytes_eqb (a b : list byte) : bool :=
  match a, b with
  | [], [] => true
  | x :: a', y :: b' => Byte.eqb x y && bytes_eqb a' b'
  | _, _ => false
  end.

(** Whether a key occurs twice in a list of derived keys. *)
Fixpoint has_duplicate (keys : list (list byte)) : bool :=
  match keys with
  | [] => false
  | k :: rest => existsb (bytes_eqb k) rest || has_duplicate rest
  end.

Section Transaction.

Context {T : Type} `{Serializable bool T}.

Record UnsignedTransaction : Type := {
  Inputs : Serializables T;
  Outputs : Serializables T;
  Payload : iface T
}.

(** The zero value [UnsignedTransaction{}]. *)
Definition UnsignedTransaction_zero : UnsignedTransaction :=
  {| Inputs := []; Outputs := []; Payload := None |}.

Definition TransactionSelector (typeByte : byte)
  : iface UnsignedTransaction * option error :=
  match typeByte with
  | x00 => (Some UnsignedTransaction_zero, None)
  | _ =>
      (None, Some (fmt_Errorf "%w: type byte %d" ErrUnknownTransactionType
                     [ArgInt (byte_to_Z typeByte)]))
  end.

(** [ValidateInputs], [ValidateOutputs] and the two uniqueness validators
    are declared in a file that is not among the sources: [Serialize] takes
    them as parameters.  A validator constructor such as
    [InputsUTXORefsUniqueValidator()] is given by the validator it
    returns. *)
Variable InputsValidatorFunc : Type.
Variable ValidateInputs :
  Serializables T -> list InputsValidatorFunc -> option error.
Variable InputsUTXORefsUniqueValidator : InputsValidatorFunc.
Variable OutputsValidatorFunc : Type.
Variable ValidateOutputs :
  Serializables T -> list OutputsValidatorFunc -> option error.
Variable OutputsAddrUniqueValidator : OutputsValidatorFunc.

(** A method call [x.Serialize(skipValidation)] on an interface value. *)
Definition call_Serialize (x : iface T) (skipValidation : bool)
  : outcome (list byte * option error) :=
  match x with
  | Some seri => Serialize seri skipValidation
  | None => Panics nil_dereference
  end.

(** [x] serializes to the bytes [ser] without an error. *)
Definition serializes_to (skipValidation : bool) (x : iface T)
    (ser : list byte) : Prop :=
  call_Serialize x skipValidation = Returns (ser, None).

(** The two [for i := range] loops of [Serialize], over [u.Inputs] and
    over [u.Outputs]; they differ in the text of the error only.  [b] is
    the content of the buffer, [i] the index of the head of [elems]. *)
Fixpoint Serialize_elements (format : string) (elems : Serializables T)
    (i : Z) (skipValidation : bool) (b : list byte)
  : outcome (list byte * option error) :=
  match elems with
  | [] => Returns (b, None)
  | x :: elems' =>
      '(ser, err) <- call_Serialize x skipValidation ;;
      match err with
      | Some err => Returns ([], Some (fmt_Errorf format err [ArgInt i]))
      | None =>
          Serialize_elements format elems' (i + 1) skipValidation (b ++ ser)
      end
  end.

(** [bytes.Buffer] writes never return an error, so the checks after
    [b.WriteByte] and [b.Write] never leave the function. *)
Definition UnsignedTransaction_Serialize (u : UnsignedTransaction)
    (skipValidation : bool) : outcome (list byte * option error) :=
  match (if negb skipValidation
         then match ValidateInputs (Inputs u) [InputsUTXORefsUniqueValidator] with
              | Some err => Some err
              | None =>
                  ValidateOutputs (Outputs u) [OutputsAddrUniqueValidator]
              end
         else None) with
  | Some err => Returns ([], Some err)
  | None =>
      let b := [] in
      let b := b ++ [TransactionUnsigned] in
      let b := b ++ PutUvarint (uint64_of_int (len (Inputs u))) in
      '(b, err) <- Serialize_elements
                     "unable to serialize input at index %d: %w"
                     (Inputs u) 0 skipValidation b ;;
      match err with
      | Some err => Returns ([], Some err)
      | None =>
          (* reuse varIntBuf *)
          let b := b ++ PutUvarint (uint64_of_int (len (Outputs u))) in
          '(b, err) <- Serialize_elements
                         "unable to serialize output at index %d: %w"
                         (Outputs u) 0 skipValidation b ;;
          match err with
          | Some err => Returns ([], Some err)
          | None =>
              match Payload u with
              | None =>
                  (* no payload *)
                  Returns (b ++ [x00], None)
              | Some payload =>
                  (* the error of the payload is assigned and not read *)
                  '(payloadSer, err) <- Serialize payload skipValidation ;;
                  let b := b ++ payloadSer in
                  let b := b ++ PutUvarint (uint64_of_int (len payloadSer)) in
                  let b := b ++ payloadSer in
                  Returns (b, None)
              end
          end
      end
  end.

End Transaction.

(* ------------------------------------------------------------------ *)
(** ** The validators of section 4.6 of the specification *)

Module Validators.
Section Model.

Context {T : Type}.

(** Modelled from the spec: the derived key of an input, "transaction-id +
    output-index" (section 4.6); the input entity is not among the
    sources. *)
Variable UTXORefKey : iface T -> list byte.

(** Modelled from the spec: the derived key of an output, its "serialized
    Address bytes" (section 4.6); the output entity is not among the
    sources. *)
Variable AddrKey : iface T -> list byte.

(** Modelled from the spec: the validators are not among the sources.
    Section 4.6: a validator is a pure function over a collection that
    returns success or a failure condition. *)
Definition ValidatorFunc : Type := Serializables T -> option error.

(** Modelled from the spec: section 4.6, "multiple validators compose by
    short-circuiting on first failure, run in caller-declared order". *)
Fixpoint run_validators (elems : Serializables T) (funcs : list ValidatorFunc)
  : option error :=
  match funcs with
  | [] => None
  | f :: funcs' =>
      match f elems with
      | Some err => Some err
      | None => run_validators elems funcs'
      end
  end.

(** Modelled from the spec: section 4.6, validators of inputs run in the
    order the caller gives them. *)
Definition ValidateInputs := run_validators.

(** Modelled from the spec: section 4.6, validators of outputs run in the
    order the caller gives them. *)
Definition ValidateOutputs := run_validators.

(** Modelled from the spec: section 4.6, UTXO-reference uniqueness "fails
    ... if any two inputs share a key". *)
Definition InputsUTXORefsUniqueValidator : ValidatorFunc :=
  fun inputs =>
    if has_duplicate (map UTXORefKey inputs)
    then Some ErrInputUTXORefsNotUnique else None.

(** Modelled from the spec: section 4.6, address uniqueness "fails ... if
    any two outputs share a key". *)
Definition OutputsAddrUniqueValidator : ValidatorFunc :=
  fun outputs =>
    if has_duplicate (map AddrKey outputs)
    then Some ErrOutputAddrNotUnique else None.

End Model.
End Validators.

(** [UnsignedTransaction.Serialize] with the validators of section 4.6 for
    its parameters. *)
Definition Serialize_with_validators {T : Type} `{Serializable bool T}
    (UTXORefKey AddrKey : iface T -> list byte)
    (u : UnsignedTransaction) (skipValidation : bool)
  : outcome (list byte * option error) :=
  UnsignedTransaction_Serialize
    Validators.ValidatorFunc Validators.ValidateInputs
    (Validators.InputsUTXORefsUniqueValidator UTXORefKey)
    Validators.ValidatorFunc Validators.ValidateOutputs
    (Validators.OutputsAddrUniqueValidator AddrKey)
    u skipValidation.

(* ------------------------------------------------------------------ *)
(** ** A small entity family for running the generic codec

    [DeserializeObject] and [DeserializeArrayOfObjects] take the entity
    family as an argument.  The examples below run them on this family: an
    entry is serialized as its type byte, 0, followed by one value byte. *)

Module Entries.

Record Entry : Type := { value : byte }.

Definition EntryType : byte := x00.
Definition EntrySerializedBytesSize : Z := 2.

Definition Entry_Deserialize {M : Type} (e : Entry) (data : list byte)
    (mode : M) : outcome (Entry * (Z * option error)) :=
  match checkMinByteLength EntrySerializedBytesSize (len data) with
  | Some err => Returns (e, (0, Some err))
  | None =>
      (* skip type byte *)
      data <- slice_from data OneByte ;;
      match data with
      | v :: _ => Returns ({| value := v |}, (EntrySerializedBytesSize, None))
      | [] => Panics "index out of range"
      end
  end.

Definition Entry_Serialize {M : Type} (e : Entry) (mode : M)
  : outcome (list byte * option error) :=
  Returns ([EntryType; value e], None).

#[global] Instance Entry_Serializable (M : Type) : Serializable M Entry := {
  Deserialize := Entry_Deserialize;
  Serialize := Entry_Serialize;
  GoTypeName := fun _ => "*Entry"
}.

Definition EntrySelector (ty : Z) : iface Entry * option error :=
  if ty =? 0 then (Some {| value := x00 |}, None)
  else (None, Some (fmt_Errorf "%w: type byte %d" ErrUnknownInputType
                      [ArgInt ty])).

(** An entity whose methods are not implemented, like the WOTS
    signature. *)
Inductive Stub : Type := Build_Stub.

#[global] Instance Stub_Serializable (M : Type) : Serializable M Stub := {
  Deserialize := fun _ _ _ => Panics "implement me";
  Serialize := fun _ _ => Panics "implement me";
  GoTypeName := fun _ => "*Stub"
}.

Definition StubSelector (ty : Z) : iface Stub * option error :=
  (Some Build_Stub, None).

Definition ErrMinEntriesNotReached := errors_New "min entries not reached".
Definition ErrMaxEntriesExceeded := errors_New "max entries exceeded".
Definition ErrEntriesOrderViolatesLexicalOrder :=
  errors_New "entries must be in their lexical order (byte wise) when serialized".

(** Between one and three entries, in lexical order. *)
Definition entriesArrayBound : ArrayRules := {|
  Min := 1;
  Max := 3;
  MinErr := ErrMinEntriesNotReached;
  MaxErr := ErrMaxEntriesExceeded;
  ElementBytesLexicalOrder := true;
  ElementBytesLexicalOrderErr := ErrEntriesOrderViolatesLexicalOrder
|}.

(** Rules whose lower bound lies above their upper bound. *)
Definition crossedArrayBound : ArrayRules := {|
  Min := 5;
  Max := 2;
  MinErr := ErrMinEntriesNotReached;
  MaxErr := ErrMaxEntriesExceeded;
  ElementBytesLexicalOrder := false;
  ElementBytesLexicalOrderErr := ErrEntriesOrderViolatesLexicalOrder
|}.

(** The derived key of an entry: its value byte. *)
Definition EntryKey (x : iface Entry) : list byte :=
  match x with
  | Some e => [value e]
  | None => []
  end.

End Entries.

(* ------------------------------------------------------------------ *)
(** ** serializable.go: the remaining functions *)

(** An index expression [l[i]]. *)
Definition index {A : Type} (l : list A) (i : Z) : outcome A :=
  if (0 <=? i) && (i <? len l)
  then match nth_error l (Z.to_nat i) with
       | Some x => Returns x
       | None => Panics "index out of range"
       end
  else Panics "index out of range".

(** The assignment [l[i] = x] to an element in range. *)
Definition assign {A : Type} (l : list A) (i : Z) (x : A) : list A :=
  firstn (Z.to_nat i) l ++ x :: skipn (S (Z.to_nat i)) l.

Definition LexicalOrderedByteSlices : Type := list (list byte).

Definition LexicalOrderedByteSlices_Len (l : LexicalOrderedByteSlices) : Z :=
  len l.

Definition LexicalOrderedByteSlices_Less (l : LexicalOrderedByteSlices)
    (i j : Z) : outcome bool :=
  a <- index l i ;;
  b <- index l j ;;
  Returns (match bytes_Compare a b with
           | Lt => true
           | _ => false
           end).

(** [l[i], l[j] = l[j], l[i]]: both operands are read, then both elements
    are assigned.  The result is the slice after the call. *)
Definition LexicalOrderedByteSlices_Swap (l : LexicalOrderedByteSlices)
    (i j : Z) : outcome LexicalOrderedByteSlices :=
  a <- index l i ;;
  b <- index l j ;;
  Returns (assign (assign l i b) j a).

(** The closure of [LexicalOrderValidator] called on the elements of a
    sequence in turn, the first one at index [i], as the loop of
    [DeserializeArrayOfObjects] calls it; the calls stop at the first
    error. *)
Fixpoint LexicalOrderFunc_calls (ar : ArrayRules) (st : LexicalOrderState)
    (i : Z) (elements : list (list byte)) : LexicalOrderState * option error :=
  match elements with
  | [] => (st, None)
  | next :: elements' =>
      let '(st, err) := LexicalOrderFunc ar st i next in
      match err with
      | Some err => (st, Some err)
      | None => LexicalOrderFunc_calls ar st (i + 1) elements'
      end
  end.

(** Whether no element of a sequence compares greater than its successor. *)
Fixpoint in_lexical_order (elements : list (list byte)) : bool :=
  match elements with
  | a :: (b :: _) as elements' =>
      match bytes_Compare a b with
      | Gt => false
      | _ => in_lexical_order elements'
      end
  | _ => true
  end.

Section TypeHeader.

(** The package's varint reader: value, bytes read, error. *)
Variable Uvarint : list byte -> Z * Z * option error.

(** [checkType(data, shouldType)], declared in a file that is not among the
    sources: bytes read and error. *)
Variable checkType : list byte -> Z -> Z * option error.

Definition ReadTypeAndAdvance (data : list byte) (shouldType : Z)
    (deSeriMode : DeSerializationMode)
  : outcome (list byte * Z * option error) :=
  let '(typeBytesRead, err) :=
    if HasMode deSeriMode DeSeriModePerformValidation
    then checkType data shouldType
    else let '(_, typeBytesRead, err) := Uvarint data in (typeBytesRead, err) in
  match err with
  | Some err => Returns ([], 0, Some err)
  | None =>
      rest <- slice_from data typeBytesRead ;;
      Returns (rest, typeBytesRead, None)
  end.

End TypeHeader.

(** [WriteTypeHeader]: the content of the buffer, the varint array and the
    number of bytes written. *)
Definition WriteTypeHeader (ty : Z) : list byte * list byte * Z :=
  let b := [] in
  let varintBuf := zero_bytes (Z.to_nat MaxVarintLen64) in
  let written := PutUvarint ty in
  let varintBuf := copy varintBuf written in
  let bytesWritten := len written in
  let b := b ++ firstn (Z.to_nat bytesWritten) varintBuf in
  (b, varintBuf, bytesWritten).

(* ------------------------------------------------------------------ *)
(** ** error.go, second half: decoding the unsigned transaction *)

Section TransactionDeserialize.

Context {T : Type} `{Serializable bool T}.

(** The package's varint reader: value, bytes read, error. *)
Variable Uvarint : list byte -> Z * Z * option error.

(** [checkType(data, shouldType)] as this file calls it, with an error for
    its only result; it is declared in a file that is not among the
    sources. *)
Variable checkType : list byte -> byte -> option error.

(** The selectors and array rules of inputs and outputs, declared with the
    input and output entities, which are not among the sources. *)
Variable InputSelector : @SerializableSelectorFunc T.
Variable inputsArrayBound : ArrayRules.
Variable OutputSelector : @SerializableSelectorFunc T.
Variable outputsArrayBound : ArrayRules.

(** The validators, parameters as for [Serialize]. *)
Variable InputsValidatorFunc : Type.
Variable ValidateInputs :
  Serializables T -> list InputsValidatorFunc -> option error.
Variable InputsUTXORefsUniqueValidator : InputsValidatorFunc.
Variable OutputsValidatorFunc : Type.
Variable ValidateOutputs :
  Serializables T -> list OutputsValidatorFunc -> option error.
Variable OutputsAddrUniqueValidator : OutputsValidatorFunc.

(** [ReadUvarint(bytes.NewReader(b))] as a function of [b]: value, bytes
    read, error.  [ReadUvarint] is not among the sources. *)
Variable ReadUvarint : list byte -> Z * Z * option error.

(** The first component of the result is the transaction the method was
    called on as the call leaves it: the receiver is a pointer, and
    [u.Inputs] and [u.Outputs] are assigned on the way. *)
Definition UnsignedTransaction_Deserialize (u : @UnsignedTransaction T)
    (data : list byte) (skipValidation : bool)
  : outcome (@UnsignedTransaction T * (Z * option error)) :=
  match (if negb skipValidation
         then match checkType data TransactionUnsigned with
              | Some err =>
                  Some (fmt_Errorf
                          "unable to deserialize unsigned transaction: %w"
                          err [])
              | None => None
              end
         else None) with
  | Some err => Returns (u, (0, Some err))
  | None =>
      (* skip type byte *)
      let bytesReadTotal := OneByte in
      data <- slice_from data OneByte ;;
      '(inputs, inputBytesRead, err) <-
        DeserializeArrayOfObjects Uvarint data skipValidation InputSelector
          (Some inputsArrayBound) ;;
      match err with
      | Some err => Returns (u, (0, Some err))
      | None =>
          let bytesReadTotal := int_add bytesReadTotal inputBytesRead in
          match (if negb skipValidation
                 then ValidateInputs inputs [InputsUTXORefsUniqueValidator]
                 else None) with
          | Some err => Returns (u, (0, Some err))
          | None =>
              let u := {| Inputs := inputs;
                          Outputs := Outputs u;
                          Payload := Payload u |} in
              (* advance to outputs *)
              data <- slice_from data inputBytesRead ;;
              '(outputs, outputBytesRead, err) <-
                DeserializeArrayOfObjects Uvarint data skipValidation
                  OutputSelector (Some outputsArrayBound) ;;
              match err with
              | Some err => Returns (u, (0, Some err))
              | None =>
                  let bytesReadTotal := int_add bytesReadTotal outputBytesRead in
                  match (if negb skipValidation
                         then ValidateOutputs outputs
                                [OutputsAddrUniqueValidator]
                         else None) with
                  | Some err => Returns (u, (0, Some err))
                  | None =>
                      let u := {| Inputs := Inputs u;
                                  Outputs := outputs;
                                  Payload := Payload u |} in
                      (* advance to payload *)
                      data <- slice_from data outputBytesRead ;;
                      head <- slice data 0 MaxVarintLen64 ;;
                      let '(payloadLength, payloadLengthByteSize, err) :=
                        ReadUvarint head in
                      match err with
                      | Some err => Returns (u, (0, Some err))
                      | None =>
                          let bytesReadTotal :=
                            int_add bytesReadTotal payloadLengthByteSize in
                          if payloadLength =? 0
                          then Returns (u, (bytesReadTotal, None))
                          else
                            data <- slice_from data payloadLengthByteSize ;;
                            _ <- index data 0 ;;
                            let bytesReadTotal :=
                              int_add bytesReadTotal
                                (int_of_uint64 payloadLength) in
                            Returns (u, (bytesReadTotal, None))
                      end
                  end
              end
          end
      end
  end.

End TransactionDeserialize.

(* ------------------------------------------------------------------ *)
(** ** Parameters for running the transaction decoder on the entry family *)

Module EntryTransactions.

(** A type check on the first byte. *)
Definition checkFirstByte (data : list byte) (shouldType : byte)
  : option error :=
  match data with
  | b :: _ =>
      if Byte.eqb b shouldType then None
      else Some (fmt_Errorf "%w: type byte %d" ErrUnknownTransactionType
                   [ArgInt (byte_to_Z b)])
  | [] => Some ErrDeserializationDataTooSmall
  end.

(** Array rules without bounds and without an order. *)
Definition unboundedArray : ArrayRules := {|
  Min := 0;
  Max := 0;
  MinErr := Entries.ErrMinEntriesNotReached;
  MaxErr := Entries.ErrMaxEntriesExceeded;
  ElementBytesLexicalOrder := false;
  ElementBytesLexicalOrderErr := Entries.ErrEntriesOrderViolatesLexicalOrder
|}.

(** The transaction decoder on entries: between one and three ordered
    inputs, any number of outputs, no validators, and the model of the
    varint reader for both readers. *)
Definition decodeEntries
  : @UnsignedTransaction Entries.Entry -> list byte -> bool
    -> outcome (@UnsignedTransaction Entries.Entry * (Z * option error)) :=
  UnsignedTransaction_Deserialize Uvarint_model checkFirstByte
    Entries.EntrySelector Entries.entriesArrayBound
    Entries.EntrySelector unboundedArray
    unit (fun _ _ => None) tt unit (fun _ _ => None) tt Uvarint_model.

(** An entry that serializes only when its value is not zero. *)
Record Checked : Type := { checked : byte }.

#[global] Instance Checked_Serializable : Serializable bool Checked := {
  Deserialize := fun c _ _ => Returns (c, (0, Some ErrInvalidBytes));
  Serialize := fun c _ =>
    if Byte.eqb (checked c) x00
    then Returns ([], Some ErrInvalidBytes)
    else Returns ([x00; checked c], None);
  GoTypeName := fun _ => "*Checked"
}.

End EntryTransactions.

(* ================================================================== *)
(** * Properties *)

(** ** Bytes and errors *)

Lemma bytes_Compare_refl (a : list byte) : bytes_Compare a a = Eq.
Proof.
  induction a as [|x a IH]; simpl; [reflexivity|].
  now rewrite Z.compare_refl.
Qed.

Lemma error_eqb_refl (e : error) : error_eqb e e = true.
Proof.
  assert (Hargs : forall a, fmt_args_eqb a a = true).
  { induction a as [|x a IH]; simpl; [reflexivity|].
    rewrite IH, andb_true_r.
    destruct x; simpl; [apply Z.eqb_refl | apply String.eqb_refl]. }
  induction e as [t | f w IH a]; simpl.
  - apply String.eqb_refl.
  - now rewrite String.eqb_refl, IH, Hargs.
Qed.

Lemma errors_Is_refl (e : error) : errors_Is e e = true.
Proof. destruct e; cbn [errors_Is]; now rewrite error_eqb_refl. Qed.

(** A wrapping error is its wrapped error, in the sense of [errors.Is]. *)
Lemma errors_Is_wrapped (format : string) (e : error) (args : list fmt_arg) :
  errors_Is (fmt_Errorf format e args) e = true.
Proof. cbn [errors_Is]. rewrite errors_Is_refl. apply orb_true_r. Qed.

(* ------------------------------------------------------------------ *)
(** ** Type selectors *)

(** C6. A type selector answers a discriminant outside the known set of its
    family with no instance and an error that wraps the family's
    unknown-type sentinel and carries the offending byte; it answers a known
    discriminant with the zero value of the matching variant and no error.
    The selectors are total functions: they cannot panic. *)
Theorem selector_unknown_type :
  (forall typeByte : byte,
      typeByte <> SignatureWOTS -> typeByte <> SignatureEd25519 ->
      SignatureSelector typeByte =
        (None, Some (fmt_Errorf "%w: type byte %d" ErrUnknownSignatureType
                       [ArgInt (byte_to_Z typeByte)]))) /\
  SignatureSelector SignatureWOTS =
    (Some (OfWOTSSignature Build_WOTSSignature), None) /\
  SignatureSelector SignatureEd25519 =
    (Some (OfEd25519Signature
             {| PublicKey := repeat x00 32; Signature := repeat x00 64 |}), None) /\
  (forall (T : Type) (typeByte : byte),
      typeByte <> TransactionUnsigned ->
      @TransactionSelector T typeByte =
        (None, Some (fmt_Errorf "%w: type byte %d" ErrUnknownTransactionType
                       [ArgInt (byte_to_Z typeByte)]))) /\
  (forall T : Type,
      @TransactionSelector T TransactionUnsigned =
        (Some {| Inputs := []; Outputs := []; Payload := None |}, None)).
Proof.
  repeat split.
  - intros b Hw He. destruct b; try reflexivity; [now elim Hw | now elim He].
  - intros T b Hu. destruct b; try reflexivity. now elim Hu.
Qed.

(** The discriminant 100 of the selector tests. *)
Lemma selector_unknown_type_witness :
  SignatureSelector x64 =
    (None, Some (fmt_Errorf "%w: type byte %d" ErrUnknownSignatureType
                   [ArgInt 100])) /\
  @TransactionSelector unit x64 =
    (None, Some (fmt_Errorf "%w: type byte %d" ErrUnknownTransactionType
                   [ArgInt 100])).
Proof.
  destruct selector_unknown_type as [Hs [_ [_ [Ht _]]]].
  split; [apply (Hs x64) | apply (Ht unit x64)]; discriminate.
Defined.

(* ------------------------------------------------------------------ *)
(** ** The WOTS signature *)

(** C5, as the code has it.  Both methods of the WOTS signature panic with
    the message "implement me", on every receiver and every buffer; neither
    returns to its caller, with an error or otherwise. *)
Theorem WOTSSignature_panics (w : WOTSSignature) (data : list byte) :
  WOTSSignature_Serialize w = Panics "implement me" /\
  WOTSSignature_Deserialize w data = Panics "implement me".
Proof. split; reflexivity. Qed.

(** C5 fails: no call of the WOTS encoder or decoder returns an error value
    to its caller. *)
Lemma WOTSSignature_returns_no_error :
  ~ (exists r, WOTSSignature_Serialize Build_WOTSSignature = Returns r) /\
  ~ (exists r, WOTSSignature_Deserialize Build_WOTSSignature [x00] = Returns r).
Proof. split; intros [r Hr]; discriminate Hr. Qed.

(* ------------------------------------------------------------------ *)
(** ** The Ed25519 signature *)

Lemma len_skipn {A : Type} (n : nat) (s : list A) :
  len (skipn n s) = Z.max 0 (len s - Z.of_nat n).
Proof. unfold len. rewrite length_skipn. lia. Qed.

Lemma slice_from_in_range (data : list byte) (lo : Z) :
  0 <= lo <= len data ->
  slice_from data lo = Returns (skipn (Z.to_nat lo) data).
Proof.
  intros Hlo. unfold slice_from.
  replace ((0 <=? lo) && (lo <=? len data)) with true; [reflexivity|].
  symmetry. apply andb_true_iff. split; apply Z.leb_le; lia.
Qed.

Lemma slice_in_range (data : list byte) (lo hi : Z) :
  0 <= lo <= hi -> hi <= len data ->
  slice data lo hi =
    Returns (firstn (Z.to_nat (hi - lo)) (skipn (Z.to_nat lo) data)).
Proof.
  intros Hlo Hhi. unfold slice.
  replace ((0 <=? lo) && (lo <=? hi) && (hi <=? len data)) with true;
    [reflexivity|].
  symmetry. rewrite !andb_true_iff. repeat split; apply Z.leb_le; lia.
Qed.

(** What [Serialize] writes is as long as an Ed25519 address, whatever the
    signature holds. *)
Lemma Ed25519Signature_Serialize_len (e : Ed25519Signature) :
  len (fst (Ed25519Signature_Serialize e)) = Ed25519AddressSerializedBytesSize.
Proof.
  unfold Ed25519Signature_Serialize, copy_at, copy, store, zero_bytes, len.
  cbn [fst].
  repeat (rewrite ?length_app, ?length_firstn, ?length_skipn, ?repeat_length;
          cbn [List.length]).
  change (Z.to_nat Ed25519AddressSerializedBytesSize) with 33%nat.
  change (Z.to_nat OneByte) with 1%nat.
  change (Z.to_nat (OneByte + ed25519_PublicKeySize)) with 33%nat.
  change Ed25519AddressSerializedBytesSize with 33.
  lia.
Qed.

(** [Deserialize] takes the type byte off the buffer and then asks the rest
    to be exactly as long as a whole serialized signature, type byte
    included: it accepts buffers of 98 bytes only, reports the size of an
    address (33) for them, and leaves the object it was called on as it
    was. *)
Lemma Ed25519Signature_Deserialize_cases
    (target : Ed25519Signature) (data : list byte) :
  Ed25519Signature_Deserialize target data =
    if len data <? 1 then Panics "slice bounds out of range"
    else if len data =? 98 then Returns (target, (33, None))
    else Returns (target,
           (0, Some (fmt_Errorf
                       "%w: data must be at exact %d bytes long but is %d"
                       ErrInvalidBytes [ArgInt 97; ArgInt (len data - 1)]))).
Proof.
  unfold Ed25519Signature_Deserialize.
  destruct (len data <? 1) eqn:Hshort.
  - apply Z.ltb_lt in Hshort. unfold slice_from.
    replace (OneByte <=? len data) with false
      by (symmetry; apply Z.leb_gt; unfold OneByte; lia).
    now rewrite andb_false_r.
  - apply Z.ltb_ge in Hshort.
    rewrite slice_from_in_range by (unfold OneByte; lia).
    cbn [bind]. rewrite len_skipn.
    change (Z.of_nat (Z.to_nat OneByte)) with 1.
    replace (Z.max 0 (len data - 1)) with (len data - 1) by lia.
    unfold checkExactByteLength.
    change Ed25519SignatureSerializedBytesSize with 97.
    destruct (len data =? 98) eqn:Hlen.
    + apply Z.eqb_eq in Hlen.
      replace (len data - 1 =? 97) with true by (symmetry; apply Z.eqb_eq; lia).
      cbn [negb].
      assert (Hrest : len (skipn (Z.to_nat OneByte) data) = 97).
      { rewrite len_skipn. change (Z.of_nat (Z.to_nat OneByte)) with 1. lia. }
      rewrite slice_in_range
        by (rewrite ?Hrest; unfold ed25519_PublicKeySize; lia).
      cbn [bind].
      rewrite slice_from_in_range
        by (rewrite ?Hrest; unfold ed25519_PublicKeySize; lia).
      reflexivity.
    + apply Z.eqb_neq in Hlen.
      replace (len data - 1 =? 97) with false by (symmetry; apply Z.eqb_neq; lia).
      reflexivity.
Qed.

(** C1, what the code does.  Decoding what [Serialize] wrote fails for
    every signature and every target: the 33 bytes written hold no
    signature field and fail the length check, and the target keeps the
    fields it had. *)
Theorem Ed25519Signature_roundtrip_fails (e target : Ed25519Signature) :
  Ed25519Signature_Deserialize target (fst (Ed25519Signature_Serialize e)) =
    Returns (target,
      (0, Some (fmt_Errorf "%w: data must be at exact %d bytes long but is %d"
                  ErrInvalidBytes [ArgInt 97; ArgInt 32]))).
Proof.
  rewrite Ed25519Signature_Deserialize_cases.
  rewrite Ed25519Signature_Serialize_len.
  reflexivity.
Qed.

(** The signature of the failing round trip: public key 01..01, signature
    02..02. *)
Example Ed25519Signature_roundtrip_example :
  let e := {| PublicKey := repeat x01 32; Signature := repeat x02 64 |} in
  Ed25519Signature_Serialize e = (x01 :: repeat x01 32, None) /\
  Ed25519Signature_Deserialize Ed25519Signature_zero (x01 :: repeat x01 32) =
    Returns (Ed25519Signature_zero,
      (0, Some (fmt_Errorf "%w: data must be at exact %d bytes long but is %d"
                  ErrInvalidBytes [ArgInt 97; ArgInt 32]))).
Proof. split; reflexivity. Qed.

(** C2, what the code does.  A buffer that is exactly one serialized
    signature long (97 bytes) is refused with the invalid-bytes error, and a
    decode that succeeds was given 98 bytes and reports 33 of them
    consumed, the size of a serialized address. *)
Theorem Ed25519Signature_Deserialize_consumption
    (target : Ed25519Signature) (data : list byte) :
  (len data = Ed25519SignatureSerializedBytesSize ->
   Ed25519Signature_Deserialize target data =
     Returns (target,
       (0, Some (fmt_Errorf "%w: data must be at exact %d bytes long but is %d"
                   ErrInvalidBytes [ArgInt 97; ArgInt 96])))) /\
  (forall (target' : Ed25519Signature) (n : Z),
      Ed25519Signature_Deserialize target data = Returns (target', (n, None)) ->
      len data = 98 /\ n = Ed25519AddressSerializedBytesSize /\ target' = target).
Proof.
  rewrite Ed25519Signature_Deserialize_cases. split.
  - intros Hlen. rewrite Hlen. reflexivity.
  - intros target' n.
    destruct (len data <? 1); [discriminate|].
    destruct (len data =? 98) eqn:Hlen; [|discriminate].
    apply Z.eqb_eq in Hlen. intros Heq. injection Heq as <- <-.
    repeat split. exact Hlen.
Qed.

(** A serialized signature of 97 bytes is refused; the same bytes followed
    by one more are accepted, with 33 bytes reported. *)
Lemma Ed25519Signature_Deserialize_consumption_witness :
  Ed25519Signature_Deserialize Ed25519Signature_zero
    (x01 :: repeat x01 32 ++ repeat x02 64) =
    Returns (Ed25519Signature_zero,
      (0, Some (fmt_Errorf "%w: data must be at exact %d bytes long but is %d"
                  ErrInvalidBytes [ArgInt 97; ArgInt 96]))) /\
  (len (x01 :: repeat x01 32 ++ repeat x02 64 ++ [x00]) = 98 /\
   33 = Ed25519AddressSerializedBytesSize /\
   Ed25519Signature_zero = Ed25519Signature_zero).
Proof.
  split.
  - apply (proj1 (Ed25519Signature_Deserialize_consumption
                    Ed25519Signature_zero
                    (x01 :: repeat x01 32 ++ repeat x02 64))).
    reflexivity.
  - apply (proj2 (Ed25519Signature_Deserialize_consumption
                    Ed25519Signature_zero
                    (x01 :: repeat x01 32 ++ repeat x02 64 ++ [x00]))
             Ed25519Signature_zero 33).
    reflexivity.
Defined.

(* ------------------------------------------------------------------ *)
(** ** The object and array primitives *)

Section CodecProperties.

Context {M T : Type} `{Serializable M T}.
Variable Uvarint : list byte -> Z * Z * option error.

(** C9. The primitive reads the discriminant, whatever its width [w], only
    to select the entity; the entity then decodes the very buffer the
    primitive was given, and the count the primitive returns is the count
    the entity reported: the width of the discriminant is not added. *)
Theorem DeserializeObject_counts_discriminant_once
    (data : list byte) (deSeriMode : M) (serSel : SerializableSelectorFunc)
    (ty w : Z) (empty decoded : T) (seriBytesConsumed : Z) :
  Uvarint data = (ty, w, None) ->
  serSel ty = (Some empty, None) ->
  Deserialize empty data deSeriMode =
    Returns (decoded, (seriBytesConsumed, None)) ->
  DeserializeObject Uvarint data deSeriMode serSel =
    Returns (Some decoded, seriBytesConsumed, None).
Proof.
  intros Hty Hsel Hdec. unfold DeserializeObject.
  rewrite Hty, Hsel, Hdec. reflexivity.
Qed.

(** The bound check alone: which error [CheckBounds] gives. *)
Lemma CheckBounds_min (ar : ArrayRules) (count : Z) :
  Min ar <> 0 -> count < Min ar ->
  CheckBounds ar count =
    Some (fmt_Errorf "%w: min is %d but count is %d" (MinErr ar)
            [ArgInt (Min ar); ArgInt count]).
Proof.
  intros Hmin Hlt. unfold CheckBounds.
  apply Z.eqb_neq in Hmin. apply Z.ltb_lt in Hlt.
  now rewrite Hmin, Hlt.
Qed.

Lemma CheckBounds_max (ar : ArrayRules) (count : Z) :
  Min ar = 0 \/ Min ar <= count ->
  Max ar <> 0 -> count > Max ar ->
  CheckBounds ar count =
    Some (fmt_Errorf "%w: max is %d but count is %d" (MaxErr ar)
            [ArgInt (Max ar); ArgInt count]).
Proof.
  intros Hmin Hmax Hgt. unfold CheckBounds.
  replace (negb (Min ar =? 0) && (count <? Min ar)) with false.
  - apply Z.eqb_neq in Hmax. apply Z.gtb_gt in Hgt.
    now rewrite Hmax, Hgt.
  - symmetry. destruct Hmin as [Hz | Hle].
    + now rewrite Hz.
    + apply andb_false_iff. right. apply Z.ltb_ge. exact Hle.
Qed.

Lemma CheckBounds_passes (ar : ArrayRules) (count : Z) :
  Min ar = 0 \/ Min ar <= count ->
  Max ar = 0 \/ count <= Max ar ->
  CheckBounds ar count = None.
Proof.
  intros Hmin Hmax. unfold CheckBounds.
  replace (negb (Min ar =? 0) && (count <? Min ar)) with false.
  - replace (negb (Max ar =? 0) && (count >? Max ar)) with false;
      [reflexivity|].
    symmetry. destruct Hmax as [Hz | Hle].
    + now rewrite Hz.
    + apply andb_false_iff. right. rewrite Z.gtb_ltb. apply Z.ltb_ge. exact Hle.
  - symmetry. destruct Hmin as [Hz | Hle].
    + now rewrite Hz.
    + apply andb_false_iff. right. apply Z.ltb_ge. exact Hle.
Qed.

(** An array decode whose count fails the bound check returns the error of
    the check. *)
Lemma DeserializeArrayOfObjects_bounds_error
    (data : list byte) (deSeriMode : M) (serSel : SerializableSelectorFunc)
    (ar : ArrayRules) (seriCount w : Z) (err : error) :
  Uvarint data = (seriCount, w, None) ->
  CheckBounds ar seriCount = Some err ->
  DeserializeArrayOfObjects Uvarint data deSeriMode serSel (Some ar) =
    Returns ([], 0, Some err).
Proof.
  intros Hcount Hcheck. unfold DeserializeArrayOfObjects.
  now rewrite Hcount, Hcheck.
Qed.

(** C7.  The declared count is checked before the loop over the elements
    is entered, so the outcome below is the same for every selector and
    every entity decoder, also for one that panics on its first call.  A
    count below a nonzero [Min] gives the error that wraps [MinErr]; a
    count above a nonzero [Max] gives the error that wraps [MaxErr], for
    all rules whose bounds do not cross ([Min] is 0 or at most [Max]), and
    for any rules when the count is not below [Min]; a bound of 0 is not
    checked. *)
Theorem DeserializeArrayOfObjects_checks_bounds_first
    (data : list byte) (deSeriMode : M) (serSel : SerializableSelectorFunc)
    (ar : ArrayRules) (seriCount w : Z) :
  Uvarint data = (seriCount, w, None) ->
  (Min ar <> 0 -> seriCount < Min ar ->
   DeserializeArrayOfObjects Uvarint data deSeriMode serSel (Some ar) =
     Returns ([], 0,
       Some (fmt_Errorf "%w: min is %d but count is %d" (MinErr ar)
               [ArgInt (Min ar); ArgInt seriCount]))) /\
  (Min ar = 0 \/ Min ar <= Max ar \/ Min ar <= seriCount ->
   Max ar <> 0 -> seriCount > Max ar ->
   DeserializeArrayOfObjects Uvarint data deSeriMode serSel (Some ar) =
     Returns ([], 0,
       Some (fmt_Errorf "%w: max is %d but count is %d" (MaxErr ar)
               [ArgInt (Max ar); ArgInt seriCount]))) /\
  (Min ar = 0 \/ Min ar <= seriCount ->
   Max ar = 0 \/ seriCount <= Max ar ->
   CheckBounds ar seriCount = None).
Proof.
  intros Hcount. repeat split.
  - intros Hmin Hlt.
    eapply DeserializeArrayOfObjects_bounds_error; [exact Hcount|].
    now apply CheckBounds_min.
  - intros Hmin Hmax Hgt.
    eapply DeserializeArrayOfObjects_bounds_error; [exact Hcount|].
    apply CheckBounds_max; [lia | exact Hmax | exact Hgt].
  - apply CheckBounds_passes.
Qed.

(** Every [return] statement inside the loop body returns no elements, a
    count of 0 and an error. *)
Lemma DeserializeArrayOfObjects_body_return
    (data : list byte) (deSeriMode : M) (serSel : SerializableSelectorFunc)
    (arrayRules : option ArrayRules) (i : Z) (st : loop_state)
    (result : Serializables T * Z * option error) :
  DeserializeArrayOfObjects_body Uvarint data deSeriMode serSel arrayRules i st
    = Returns (Return result) ->
  exists err, result = ([], 0, Some err).
Proof.
  unfold DeserializeArrayOfObjects_body. intros Hbody.
  destruct (slice_from data (offset st)) as [rest|]; [|discriminate].
  cbn [bind] in Hbody.
  destruct (DeserializeObject Uvarint rest deSeriMode serSel)
    as [[[seri n] [err|]]|]; cbn [bind] in Hbody; try discriminate.
  - injection Hbody as <-. now exists err.
  - destruct (lexicalOrderValidator st) as [lov|]; [|discriminate].
    destruct arrayRules as [ar|]; [|discriminate].
    destruct (slice data (offset st) (int_add (offset st) n)) as [element|];
      [|discriminate].
    cbn [bind] in Hbody.
    destruct (LexicalOrderFunc ar lov i element) as [lov' [err|]];
      [|discriminate].
    injection Hbody as <-. now exists err.
Qed.

Lemma DeserializeArrayOfObjects_loop_return
    (remaining : nat) (data : list byte) (deSeriMode : M)
    (serSel : SerializableSelectorFunc) (arrayRules : option ArrayRules)
    (i : Z) (st : loop_state) (result : Serializables T * Z * option error) :
  DeserializeArrayOfObjects_loop Uvarint remaining data deSeriMode serSel
    arrayRules i st = Returns (Return result) ->
  exists err, result = ([], 0, Some err).
Proof.
  revert i st. induction remaining as [|remaining IH]; intros i st Hloop.
  - discriminate Hloop.
  - cbn [DeserializeArrayOfObjects_loop] in Hloop.
    destruct (DeserializeArrayOfObjects_body Uvarint data deSeriMode serSel
                arrayRules i st) as [[st'|r]|] eqn:Hbody;
      cbn [bind] in Hloop; try discriminate.
    + eapply IH. exact Hloop.
    + injection Hloop as <-.
      eapply DeserializeArrayOfObjects_body_return. exact Hbody.
Qed.

(** The loop after [k] iterations that fell through goes on from the
    variables they left. *)
Lemma DeserializeArrayOfObjects_loop_resume
    (data : list byte) (deSeriMode : M) (serSel : SerializableSelectorFunc)
    (arrayRules : option ArrayRules) (k : nat) (st : loop_state) :
  runs_to Uvarint data deSeriMode serSel arrayRules k st ->
  forall remaining : nat,
    DeserializeArrayOfObjects_loop Uvarint (k + remaining) data deSeriMode
      serSel arrayRules 0 (loop_start arrayRules) =
    DeserializeArrayOfObjects_loop Uvarint remaining data deSeriMode
      serSel arrayRules (Z.of_nat k) st.
Proof.
  induction 1 as [|k st st' Hruns IH Hbody]; intros remaining.
  - reflexivity.
  - replace (S k + remaining)%nat with (k + S remaining)%nat by lia.
    rewrite IH. cbn [DeserializeArrayOfObjects_loop].
    rewrite Hbody. cbn [bind].
    now rewrite Nat2Z.inj_succ.
Qed.

(** C8. Whenever the array decode returns an error, it returns no
    elements and a count of 0 with it.  And when, after [k] elements that
    decoded and passed the order check, the decode of the next element
    fails with [err], the array decode returns just that: no elements, a
    count of 0, and [err]; the [k] elements decoded so far are dropped. *)
Theorem DeserializeArrayOfObjects_no_partial_result
    (data : list byte) (deSeriMode : M) (serSel : SerializableSelectorFunc)
    (arrayRules : option ArrayRules) :
  (forall (result : Serializables T) (bytesRead : Z) (err : error),
      DeserializeArrayOfObjects Uvarint data deSeriMode serSel arrayRules =
        Returns (result, bytesRead, Some err) ->
      result = [] /\ bytesRead = 0) /\
  (forall (seriCount w : Z) (objects rest : list byte) (k : nat)
          (st : loop_state) (seri : iface T) (n : Z) (err : error),
      Uvarint data = (seriCount, w, None) ->
      match arrayRules with
      | Some ar => CheckBounds ar seriCount
      | None => None
      end = None ->
      slice_from data w = Returns objects ->
      runs_to Uvarint objects deSeriMode serSel arrayRules k st ->
      (k < Z.to_nat (int_of_uint64 seriCount))%nat ->
      slice_from objects (offset st) = Returns rest ->
      DeserializeObject Uvarint rest deSeriMode serSel =
        Returns (seri, n, Some err) ->
      DeserializeArrayOfObjects Uvarint data deSeriMode serSel arrayRules =
        Returns ([], 0, Some err)).
Proof.
  split.
  - intros result bytesRead err. unfold DeserializeArrayOfObjects.
    destruct (Uvarint data) as [[seriCount w] [e|]].
    { intros Heq. injection Heq as <- <- _. now split. }
    destruct (match arrayRules with
              | Some ar => CheckBounds ar seriCount
              | None => None
              end) as [e|].
    { intros Heq. injection Heq as <- <- _. now split. }
    destruct (slice_from data w) as [objects|]; [|discriminate].
    cbn [bind].
    destruct (DeserializeArrayOfObjects_loop Uvarint
                (Z.to_nat (int_of_uint64 seriCount)) objects deSeriMode
                serSel arrayRules 0 (loop_start arrayRules))
      as [[st|r]|] eqn:Hloop; cbn [bind]; try discriminate.
    apply DeserializeArrayOfObjects_loop_return in Hloop.
    destruct Hloop as [e ->].
    intros Heq. injection Heq as <- <- _. now split.
  - intros seriCount w objects rest k st seri n err
      Hcount Hbounds Hobjects Hruns Hk Hrest Hdec.
    unfold DeserializeArrayOfObjects.
    rewrite Hcount, Hbounds, Hobjects. cbn [bind].
    replace (Z.to_nat (int_of_uint64 seriCount))
      with (k + S (Z.to_nat (int_of_uint64 seriCount) - S k))%nat by lia.
    rewrite (DeserializeArrayOfObjects_loop_resume _ _ _ _ _ _ Hruns).
    cbn [DeserializeArrayOfObjects_loop].
    unfold DeserializeArrayOfObjects_body.
    rewrite Hrest. cbn [bind]. rewrite Hdec. reflexivity.
Qed.


End CodecProperties.

(* ------------------------------------------------------------------ *)
(** ** The unsigned transaction *)

Lemma bytes_eqb_eq (a b : list byte) : bytes_eqb a b = true <-> a = b.
Proof.
  revert b. induction a as [|x a IH]; intros [|y b]; simpl;
    try (split; [discriminate | discriminate]); [now split|].
  rewrite andb_true_iff, IH. split.
  - intros [Hxy ->]. apply Byte.byte_dec_bl in Hxy. now subst.
  - intros Heq. injection Heq as -> ->. split; [|reflexivity].
    now apply Byte.byte_dec_lb.
Qed.

Lemma has_duplicate_NoDup (keys : list (list byte)) :
  has_duplicate keys = true <-> ~ NoDup keys.
Proof.
  induction keys as [|k rest IH]; simpl.
  - split; [discriminate|]. intros Hdup. elim Hdup. constructor.
  - rewrite orb_true_iff, IH, existsb_exists. split.
    + intros [[k' [Hin Heq]] | Hrest] Hnodup; inversion Hnodup; subst.
      * apply bytes_eqb_eq in Heq. now subst.
      * now apply Hrest.
    + intros Hdup.
      destruct (existsb (bytes_eqb k) rest) eqn:Hex.
      * left. now apply existsb_exists.
      * right. intros Hnodup. apply Hdup. constructor; [|exact Hnodup].
        intros Hin.
        assert (Htrue : existsb (bytes_eqb k) rest = true).
        { apply existsb_exists. exists k. split; [exact Hin|].
          now apply bytes_eqb_eq. }
        congruence.
Qed.

Section TransactionProperties.

Context {T : Type} `{Serializable bool T}.

Variable InputsValidatorFunc : Type.
Variable ValidateInputs :
  Serializables T -> list InputsValidatorFunc -> option error.
Variable InputsUTXORefsUniqueValidator : InputsValidatorFunc.
Variable OutputsValidatorFunc : Type.
Variable ValidateOutputs :
  Serializables T -> list OutputsValidatorFunc -> option error.
Variable OutputsAddrUniqueValidator : OutputsValidatorFunc.

(** With validation enabled, an error of the validator of the inputs, or of
    the validator of the outputs once the inputs passed, is what [Serialize]
    returns, with no bytes. *)
Lemma Serialize_validation_error (u : UnsignedTransaction) (err : error) :
  ValidateInputs (Inputs u) [InputsUTXORefsUniqueValidator] = Some err \/
  (ValidateInputs (Inputs u) [InputsUTXORefsUniqueValidator] = None /\
   ValidateOutputs (Outputs u) [OutputsAddrUniqueValidator] = Some err) ->
  UnsignedTransaction_Serialize InputsValidatorFunc ValidateInputs
    InputsUTXORefsUniqueValidator OutputsValidatorFunc ValidateOutputs
    OutputsAddrUniqueValidator u false = Returns ([], Some err).
Proof.
  unfold UnsignedTransaction_Serialize. cbn [negb].
  intros [Hin | [Hin Hout]]; rewrite Hin; [reflexivity|].
  now rewrite Hout.
Qed.

(** A loop over elements that all serialize appends their bytes in
    order. *)
Lemma Serialize_elements_all (format : string) (skipValidation : bool)
    (elems : Serializables T) (sers : list (list byte)) :
  Forall2 (serializes_to skipValidation) elems sers ->
  forall (i : Z) (b : list byte),
    Serialize_elements format elems i skipValidation b =
      Returns (b ++ List.concat sers, None).
Proof.
  induction 1 as [|x ser elems sers Hser _ IH]; intros i b; simpl.
  - now rewrite app_nil_r.
  - red in Hser. rewrite Hser. cbn [bind].
    rewrite IH. now rewrite <- app_assoc.
Qed.

(** C10. For a transaction that passes validation (or skips it) and whose
    inputs and outputs serialize, [Serialize] writes the type byte, the
    input count and the inputs, the output count and the outputs, and
    then: for a nil payload one zero byte; for a payload that serializes
    to [p], the bytes [p], the varint of [len(p)], and [p] once more. *)
Theorem Serialize_payload_written_twice
    (u : UnsignedTransaction) (skipValidation : bool)
    (inputSers outputSers : list (list byte)) :
  (skipValidation = false ->
   ValidateInputs (Inputs u) [InputsUTXORefsUniqueValidator] = None /\
   ValidateOutputs (Outputs u) [OutputsAddrUniqueValidator] = None) ->
  Forall2 (serializes_to skipValidation) (Inputs u) inputSers ->
  Forall2 (serializes_to skipValidation) (Outputs u) outputSers ->
  let sections :=
    [TransactionUnsigned]
      ++ PutUvarint (uint64_of_int (len (Inputs u))) ++ List.concat inputSers
      ++ PutUvarint (uint64_of_int (len (Outputs u))) ++ List.concat outputSers in
  (Payload u = None ->
   UnsignedTransaction_Serialize InputsValidatorFunc ValidateInputs
     InputsUTXORefsUniqueValidator OutputsValidatorFunc ValidateOutputs
     OutputsAddrUniqueValidator u skipValidation =
     Returns (sections ++ [x00], None)) /\
  (forall (payload : T) (p : list byte) (payloadErr : option error),
      Payload u = Some payload ->
      Serialize payload skipValidation = Returns (p, payloadErr) ->
      UnsignedTransaction_Serialize InputsValidatorFunc ValidateInputs
        InputsUTXORefsUniqueValidator OutputsValidatorFunc ValidateOutputs
        OutputsAddrUniqueValidator u skipValidation =
        Returns (sections ++ p ++ PutUvarint (uint64_of_int (len p)) ++ p,
                 None)).
Proof.
  intros Hvalid Hinputs Houtputs sections.
  assert (Hcheck :
    (if negb skipValidation
     then match ValidateInputs (Inputs u) [InputsUTXORefsUniqueValidator] with
          | Some err => Some err
          | None => ValidateOutputs (Outputs u) [OutputsAddrUniqueValidator]
          end
     else None) = None).
  { destruct skipValidation; [reflexivity|].
    destruct (Hvalid eq_refl) as [Hin Hout].
    cbn [negb]. now rewrite Hin, Hout. }
  split.
  - intros Hnil. unfold UnsignedTransaction_Serialize.
    rewrite Hcheck.
    rewrite (Serialize_elements_all _ _ _ _ Hinputs). cbn [bind].
    rewrite (Serialize_elements_all _ _ _ _ Houtputs). cbn [bind].
    rewrite Hnil. subst sections.
    f_equal. f_equal. cbn [app]. now rewrite <- !app_assoc.
  - intros payload p payloadErr Hpayload Hp.
    unfold UnsignedTransaction_Serialize.
    rewrite Hcheck.
    rewrite (Serialize_elements_all _ _ _ _ Hinputs). cbn [bind].
    rewrite (Serialize_elements_all _ _ _ _ Houtputs). cbn [bind].
    rewrite Hpayload, Hp. cbn [bind]. subst sections.
    f_equal. f_equal. cbn [app]. now rewrite <- !app_assoc.
Qed.

End TransactionProperties.

(** C4. With validation enabled ([skipValidation] false), a transaction in
    which two inputs have the same UTXO reference key, or two outputs the
    same address key, is not serialized: [Serialize] returns the error of
    the uniqueness validator and no bytes.  The validators run before the
    buffer is created, so this holds whatever serializing the elements
    would do. *)
Theorem Serialize_validates_first {T : Type} `{Serializable bool T}
    (UTXORefKey AddrKey : iface T -> list byte) (u : UnsignedTransaction) :
  ~ NoDup (map UTXORefKey (Inputs u)) \/ ~ NoDup (map AddrKey (Outputs u)) ->
  exists err : error,
    Serialize_with_validators UTXORefKey AddrKey u false =
      Returns ([], Some err) /\
    (err = ErrInputUTXORefsNotUnique \/ err = ErrOutputAddrNotUnique).
Proof.
  intros Hdup. unfold Serialize_with_validators.
  destruct (has_duplicate (map UTXORefKey (Inputs u))) eqn:Hin.
  - exists ErrInputUTXORefsNotUnique. split; [|now left].
    apply Serialize_validation_error. left.
    cbn. unfold Validators.InputsUTXORefsUniqueValidator. now rewrite Hin.
  - destruct (has_duplicate (map AddrKey (Outputs u))) eqn:Hout.
    + exists ErrOutputAddrNotUnique. split; [|now right].
      apply Serialize_validation_error. right.
      cbn. unfold Validators.InputsUTXORefsUniqueValidator,
        Validators.OutputsAddrUniqueValidator.
      now rewrite Hin, Hout.
    + exfalso. destruct Hdup as [Hdup | Hdup];
        apply has_duplicate_NoDup in Hdup; congruence.
Qed.

(* ------------------------------------------------------------------ *)
(** ** The properties on the entry family *)

Import Entries.

Lemma DeserializeObject_counts_discriminant_once_witness :
  Uvarint_model [x00; x05; x00; x04] = (0, 1, None) /\
  EntrySelector 0 = (Some {| value := x00 |}, None) /\
  DeserializeObject Uvarint_model [x00; x05; x00; x04]
    DeSeriModePerformValidation EntrySelector =
    Returns (Some {| value := x05 |}, 2, None).
Proof.
  split; [reflexivity | split; [reflexivity|]].
  apply (DeserializeObject_counts_discriminant_once Uvarint_model
           [x00; x05; x00; x04] DeSeriModePerformValidation EntrySelector
           0 1 {| value := x00 |} {| value := x05 |} 2); reflexivity.
Defined.

(** Rules whose bounds cross leave counts that violate both bounds: with
    [Min] 5 and [Max] 2, a declared count of 3 is reported with the error
    of the lower bound, which is tested first. *)
Lemma count_above_max_reported_as_below_min :
  exists err : error,
    Uvarint_model [x03] = (3, 1, None) /\
    Max crossedArrayBound <> 0 /\ 3 > Max crossedArrayBound /\
    DeserializeArrayOfObjects Uvarint_model [x03] DeSeriModePerformValidation
      EntrySelector (Some crossedArrayBound) = Returns ([], 0, Some err) /\
    errors_Is err (MinErr crossedArrayBound) = true /\
    errors_Is err (MaxErr crossedArrayBound) = false.
Proof.
  eexists. repeat split; try reflexivity; try discriminate.
Qed.

(** The three cases on the stub family, whose decoder panics when called:
    a count of 0 under [Min] 1, a count of 4 over [Max] 3, and a count of 2
    within the bounds. *)
Lemma DeserializeArrayOfObjects_checks_bounds_first_witness :
  DeserializeArrayOfObjects Uvarint_model [x00] DeSeriModePerformValidation
    StubSelector (Some entriesArrayBound) =
    Returns ([], 0,
      Some (fmt_Errorf "%w: min is %d but count is %d" ErrMinEntriesNotReached
              [ArgInt 1; ArgInt 0])) /\
  DeserializeArrayOfObjects Uvarint_model [x04; x00; x05]
    DeSeriModePerformValidation StubSelector (Some entriesArrayBound) =
    Returns ([], 0,
      Some (fmt_Errorf "%w: max is %d but count is %d" ErrMaxEntriesExceeded
              [ArgInt 3; ArgInt 4])) /\
  CheckBounds entriesArrayBound 2 = None.
Proof.
  split; [|split].
  - apply (proj1 (DeserializeArrayOfObjects_checks_bounds_first Uvarint_model
                    [x00] DeSeriModePerformValidation StubSelector
                    entriesArrayBound 0 1 eq_refl)).
    + discriminate.
    + reflexivity.
  - apply (proj1 (proj2 (DeserializeArrayOfObjects_checks_bounds_first
                    Uvarint_model [x04; x00; x05] DeSeriModePerformValidation
                    StubSelector entriesArrayBound 4 1 eq_refl))).
    + right. left. discriminate.
    + discriminate.
    + reflexivity.
  - apply (proj2 (proj2 (DeserializeArrayOfObjects_checks_bounds_first
                    (T := Stub) Uvarint_model [x02] DeSeriModePerformValidation
                    StubSelector entriesArrayBound 2 1 eq_refl))).
    + right. discriminate.
    + right. discriminate.
Defined.

(** Two entries declared, the second one cut short: the first entry decodes
    and is dropped when the second fails. *)
Lemma DeserializeArrayOfObjects_no_partial_result_witness :
  DeserializeArrayOfObjects Uvarint_model [x02; x00; x05; x00]
    DeSeriModePerformValidation EntrySelector (Some entriesArrayBound) =
    Returns ([], 0,
      Some (fmt_Errorf "unable to deserialize %T: %w"
              (fmt_Errorf "%w: data must be at least %d bytes long but is %d"
                 ErrInvalidBytes [ArgInt 2; ArgInt 1])
              [ArgType "*Entry"])).
Proof.
  apply (proj2 (DeserializeArrayOfObjects_no_partial_result Uvarint_model
                  [x02; x00; x05; x00] DeSeriModePerformValidation
                  EntrySelector (Some entriesArrayBound))
           2 1 [x00; x05; x00] [x00] 1%nat
           {| lexicalOrderValidator :=
                Some {| prev := Some [x00; x05]; prevIndex := 0 |};
              seris := [Some {| value := x05 |}];
              offset := 2 |}
           None 0).
  - reflexivity.
  - reflexivity.
  - reflexivity.
  - eapply runs_to_next; [apply runs_to_start | reflexivity].
  - vm_compute. lia.
  - reflexivity.
  - reflexivity.
Defined.



(** Two inputs with the same key. *)
Lemma Serialize_validates_first_witness :
  exists err : error,
    Serialize_with_validators EntryKey EntryKey
      {| Inputs := [Some {| value := x05 |}; Some {| value := x05 |}];
         Outputs := [Some {| value := x07 |}];
         Payload := None |} false =
      Returns ([], Some err) /\
    (err = ErrInputUTXORefsNotUnique \/ err = ErrOutputAddrNotUnique).
Proof.
  apply (Serialize_validates_first EntryKey EntryKey
           {| Inputs := [Some {| value := x05 |}; Some {| value := x05 |}];
              Outputs := [Some {| value := x07 |}];
              Payload := None |}).
  left. apply has_duplicate_NoDup. reflexivity.
Defined.

(** The same on stub elements, whose [Serialize] panics when called: the
    validator answers before any element is serialized. *)
Example Serialize_validates_before_elements :
  Serialize_with_validators (fun _ => []) (fun _ => [])
    {| Inputs := [Some Build_Stub; Some Build_Stub];
       Outputs := [];
       Payload := None |} false =
    Returns ([], Some ErrInputUTXORefsNotUnique) /\
  Serialize_with_validators (fun _ => []) (fun _ => [])
    {| Inputs := [Some Build_Stub; Some Build_Stub];
       Outputs := [];
       Payload := None |} true =
    Panics "implement me".
Proof. split; reflexivity. Qed.

(** One input 00 05, one output 00 07, and the payload 00 09 or none. *)
Lemma Serialize_payload_written_twice_witness :
  Serialize_with_validators EntryKey EntryKey
    {| Inputs := [Some {| value := x05 |}];
       Outputs := [Some {| value := x07 |}];
       Payload := None |} false =
    Returns ([x00; x01; x00; x05; x01; x00; x07; x00], None) /\
  Serialize_with_validators EntryKey EntryKey
    {| Inputs := [Some {| value := x05 |}];
       Outputs := [Some {| value := x07 |}];
       Payload := Some {| value := x09 |} |} false =
    Returns ([x00; x01; x00; x05; x01; x00; x07; x00; x09; x02; x00; x09], None).
Proof.
  unfold Serialize_with_validators. split.
  - refine (proj1 (Serialize_payload_written_twice _ _ _ _ _ _
             {| Inputs := [Some {| value := x05 |}];
                Outputs := [Some {| value := x07 |}];
                Payload := None |} false [[x00; x05]] [[x00; x07]] _ _ _) _).
    + intros _. split; reflexivity.
    + repeat constructor.
    + repeat constructor.
    + reflexivity.
  - refine (proj2 (Serialize_payload_written_twice _ _ _ _ _ _
             {| Inputs := [Some {| value := x05 |}];
                Outputs := [Some {| value := x07 |}];
                Payload := Some {| value := x09 |} |} false
             [[x00; x05]] [[x00; x07]] _ _ _)
             {| value := x09 |} [x00; x09] None _ _).
    + intros _. split; reflexivity.
    + repeat constructor.
    + repeat constructor.
    + reflexivity.
    + reflexivity.
Defined.

(* ================================================================== *)
(** * Further properties of the codec *)

(** ** Modes and bounds *)

(** X1. [HasMode] compares the masked mode with 1: with the validation flag
    it holds exactly for the modes whose lowest bit is set, and it never
    holds for a flag whose lowest bit is clear, whatever the mode. *)
Theorem HasMode_lowest_bit (sm mode : DeSerializationMode) :
  HasMode sm DeSeriModePerformValidation = Z.odd sm /\
  (Z.even mode = true -> HasMode sm mode = false).
Proof.
  unfold HasMode, DeSeriModePerformValidation. split.
  - change (Z.shiftl 1 0) with (Z.ones 1).
    rewrite Z.land_ones by lia. change (2 ^ 1) with 2.
    rewrite Zodd_mod. reflexivity.
  - intros Heven. apply Z.eqb_neq. intros Hland.
    assert (Hbit : Z.testbit (Z.land sm mode) 0 = true)
      by (rewrite Hland; reflexivity).
    rewrite Z.land_spec, !Z.bit0_odd, <- (Z.negb_even mode), Heven in Hbit.
    now rewrite andb_false_r in Hbit.
Qed.

Lemma HasMode_lowest_bit_witness :
  HasMode 3 DeSeriModePerformValidation = true /\ HasMode 3 2 = false.
Proof.
  destruct (HasMode_lowest_bit 3 2) as [Hodd Heven].
  split; [exact Hodd | apply Heven; reflexivity].
Defined.

(** X2. [CheckBounds] accepts a count exactly when it is not below a
    nonzero [Min] and not above a nonzero [Max]; the error of a refused
    count wraps [MinErr] or [MaxErr]. *)
Theorem CheckBounds_accepts_iff (ar : ArrayRules) (count : Z) :
  (CheckBounds ar count = None <->
   (Min ar = 0 \/ Min ar <= count) /\ (Max ar = 0 \/ count <= Max ar)) /\
  (forall err : error,
      CheckBounds ar count = Some err ->
      errors_Is err (MinErr ar) = true \/ errors_Is err (MaxErr ar) = true).
Proof.
  split; [split|].
  - unfold CheckBounds. intros Hnone.
    destruct (Min ar =? 0) eqn:Hmin; destruct (count <? Min ar) eqn:Hlt;
      cbn [negb andb] in Hnone; try discriminate;
      destruct (Max ar =? 0) eqn:Hmax; destruct (count >? Max ar) eqn:Hgt;
      cbn [negb andb] in Hnone; try discriminate;
      rewrite ?Z.eqb_eq, ?Z.eqb_neq, ?Z.ltb_lt, ?Z.ltb_ge, ?Z.gtb_ltb in *;
      rewrite ?Z.ltb_lt, ?Z.ltb_ge in *; lia.
  - intros [Hmin Hmax]. now apply CheckBounds_passes.
  - intros err. unfold CheckBounds.
    destruct (negb (Min ar =? 0) && (count <? Min ar)).
    + intros Heq. injection Heq as <-. left. apply errors_Is_wrapped.
    + destruct (negb (Max ar =? 0) && (count >? Max ar)); [|discriminate].
      intros Heq. injection Heq as <-. right. apply errors_Is_wrapped.
Qed.

Lemma CheckBounds_accepts_iff_witness :
  CheckBounds entriesArrayBound 3 = None /\
  (errors_Is (fmt_Errorf "%w: max is %d but count is %d" ErrMaxEntriesExceeded
                [ArgInt 3; ArgInt 4]) ErrMinEntriesNotReached = true \/
   errors_Is (fmt_Errorf "%w: max is %d but count is %d" ErrMaxEntriesExceeded
                [ArgInt 3; ArgInt 4]) ErrMaxEntriesExceeded = true).
Proof.
  split.
  - apply (proj1 (CheckBounds_accepts_iff entriesArrayBound 3)).
    split; right; discriminate.
  - apply (proj2 (CheckBounds_accepts_iff entriesArrayBound 4)).
    reflexivity.
Defined.

(** ** Length checks *)

(** X3. [checkByteLengthRange] accepts exactly the lengths between [min]
    and [max]; what it refuses, it refuses with an error that is
    [ErrInvalidBytes], the lower bound being reported first. *)
Theorem checkByteLengthRange_accepts_iff (min max length : Z) :
  (checkByteLengthRange min max length = None <-> min <= length <= max) /\
  (forall err : error,
      checkByteLengthRange min max length = Some err ->
      errors_Is err ErrInvalidBytes = true) /\
  (length < min ->
   checkByteLengthRange min max length = checkMinByteLength min length).
Proof.
  unfold checkByteLengthRange, checkMinByteLength, checkMaxByteLength.
  destruct (length <? min) eqn:Hmin; destruct (length >? max) eqn:Hmax;
    rewrite ?Z.gtb_ltb in Hmax;
    rewrite ?Z.ltb_lt, ?Z.ltb_ge in *;
    (split; [split; [try discriminate; intros _; lia | intros; try reflexivity; lia]|]);
    (split; [intros err Heq; try discriminate; injection Heq as <-;
             apply errors_Is_wrapped | intros; try reflexivity; lia]).
Qed.

Lemma checkByteLengthRange_accepts_iff_witness :
  checkByteLengthRange 2 4 3 = None /\
  errors_Is (fmt_Errorf "%w: data must be max %d bytes long but is %d"
               ErrInvalidBytes [ArgInt 4; ArgInt 5]) ErrInvalidBytes = true /\
  checkByteLengthRange 2 4 1 = checkMinByteLength 2 1.
Proof.
  split; [|split].
  - apply (proj1 (checkByteLengthRange_accepts_iff 2 4 3)). lia.
  - apply (proj1 (proj2 (checkByteLengthRange_accepts_iff 2 4 5))). reflexivity.
  - apply (proj2 (proj2 (checkByteLengthRange_accepts_iff 2 4 1))). lia.
Defined.

(** ** The Ed25519 signature, continued *)

(** X4. For a signature whose arrays have their declared sizes, [Serialize]
    returns the type byte followed by the public key and nothing else: two
    signatures with the same public key serialize to the same bytes. *)
Theorem Ed25519Signature_Serialize_drops_signature (e e' : Ed25519Signature) :
  Ed25519Signature_wf e ->
  Ed25519Signature_Serialize e = (SignatureEd25519 :: PublicKey e, None) /\
  (Ed25519Signature_wf e' -> PublicKey e' = PublicKey e ->
   Ed25519Signature_Serialize e' = Ed25519Signature_Serialize e).
Proof.
  assert (Hser : forall s, Ed25519Signature_wf s ->
            Ed25519Signature_Serialize s = (SignatureEd25519 :: PublicKey s, None)).
  { intros s [Hpk Hsig]. unfold Ed25519Signature_Serialize.
    assert (Hlen : List.length (PublicKey s) = 32%nat)
      by (unfold len, ed25519_PublicKeySize in Hpk; lia).
    change (Z.to_nat Ed25519AddressSerializedBytesSize) with 33%nat.
    change (Z.to_nat OneByte) with 1%nat.
    change (Z.to_nat (OneByte + ed25519_PublicKeySize)) with 33%nat.
    change (store (zero_bytes 33) 0 SignatureEd25519)
      with (SignatureEd25519 :: repeat x00 32).
    assert (Hpkcopy : copy_at (SignatureEd25519 :: repeat x00 32) 1 (PublicKey s)
                      = SignatureEd25519 :: PublicKey s).
    { unfold copy_at, copy. cbn [firstn skipn app].
      rewrite repeat_length, <- Hlen, firstn_all, Hlen.
      change (skipn 32 (repeat x00 32)) with (@nil byte).
      now rewrite app_nil_r. }
    rewrite Hpkcopy.
    assert (H33 : List.length (SignatureEd25519 :: PublicKey s) = 33%nat)
      by (simpl; f_equal; exact Hlen).
    unfold copy_at, copy.
    rewrite <- H33, firstn_all, skipn_all.
    cbn [List.length firstn]. rewrite skipn_nil.
    now rewrite !app_nil_r. }
  intros Hwf. split; [now apply Hser|].
  intros Hwf' Hpk. rewrite (Hser e Hwf), (Hser e' Hwf'). now rewrite Hpk.
Qed.

Lemma Ed25519Signature_Serialize_drops_signature_witness :
  Ed25519Signature_Serialize
    {| PublicKey := repeat x07 32; Signature := repeat x02 64 |} =
    (x01 :: repeat x07 32, None) /\
  Ed25519Signature_Serialize
    {| PublicKey := repeat x07 32; Signature := repeat x03 64 |} =
  Ed25519Signature_Serialize
    {| PublicKey := repeat x07 32; Signature := repeat x02 64 |}.
Proof.
  assert (Hwf : forall b, Ed25519Signature_wf
            {| PublicKey := repeat x07 32; Signature := repeat b 64 |})
    by (intros b; split; reflexivity).
  destruct (Ed25519Signature_Serialize_drops_signature
              {| PublicKey := repeat x07 32; Signature := repeat x02 64 |}
              {| PublicKey := repeat x07 32; Signature := repeat x03 64 |}
              (Hwf x02)) as [Hser Hsame].
  split; [exact Hser | apply Hsame; [apply Hwf | reflexivity]].
Defined.

(** X5. [Deserialize] panics on the empty buffer, where the type byte
    cannot be skipped.  On every other buffer it returns, and it returns an
    error exactly when the buffer is not 98 bytes long; that error is
    [ErrInvalidBytes] and comes with a count of 0. *)
Theorem Ed25519Signature_Deserialize_short_input
    (target : Ed25519Signature) (data : list byte) :
  (data = [] ->
   Ed25519Signature_Deserialize target data =
     Panics "slice bounds out of range") /\
  (data <> [] -> len data <> 98 ->
   exists err : error,
     Ed25519Signature_Deserialize target data = Returns (target, (0, Some err))
     /\ errors_Is err ErrInvalidBytes = true) /\
  (len data = 98 ->
   exists n : Z,
     Ed25519Signature_Deserialize target data = Returns (target, (n, None))).
Proof.
  rewrite Ed25519Signature_Deserialize_cases. repeat split.
  - intros ->. reflexivity.
  - intros Hne Hlen.
    replace (len data <? 1) with false.
    + replace (len data =? 98) with false by (symmetry; now apply Z.eqb_neq).
      eexists. split; [reflexivity | apply errors_Is_wrapped].
    + symmetry. apply Z.ltb_ge. destruct data; [contradiction|].
      unfold len. cbn [List.length]. lia.
  - intros Hlen. rewrite Hlen. now exists 33.
Qed.

(** The five bytes of the deserialization test, and the empty buffer. *)
Lemma Ed25519Signature_Deserialize_short_input_witness :
  Ed25519Signature_Deserialize Ed25519Signature_zero [] =
    Panics "slice bounds out of range" /\
  (exists err : error,
     Ed25519Signature_Deserialize Ed25519Signature_zero
       [x01; x02; x03; x04; x05] =
       Returns (Ed25519Signature_zero, (0, Some err))
     /\ errors_Is err ErrInvalidBytes = true) /\
  (exists n : Z,
     Ed25519Signature_Deserialize Ed25519Signature_zero (repeat x01 98) =
       Returns (Ed25519Signature_zero, (n, None))).
Proof.
  split; [|split].
  - apply (proj1 (Ed25519Signature_Deserialize_short_input
                    Ed25519Signature_zero [])). reflexivity.
  - apply (proj1 (proj2 (Ed25519Signature_Deserialize_short_input
                    Ed25519Signature_zero [x01; x02; x03; x04; x05]))).
    + discriminate.
    + discriminate.
  - apply (proj2 (proj2 (Ed25519Signature_Deserialize_short_input
                    Ed25519Signature_zero (repeat x01 98)))).
    reflexivity.
Defined.

(** ** Byte slices in lexical order *)

Lemma byte_to_Z_inj (x y : byte) : byte_to_Z x = byte_to_Z y -> x = y.
Proof.
  unfold byte_to_Z. intros Heq. apply N2Z.inj in Heq.
  assert (Hxy : Byte.of_N (Byte.to_N x) = Byte.of_N (Byte.to_N y))
    by now rewrite Heq.
  rewrite !Byte.of_to_N in Hxy. now injection Hxy.
Qed.

Lemma bytes_Compare_eq (a b : list byte) : bytes_Compare a b = Eq <-> a = b.
Proof.
  split; [|intros ->; apply bytes_Compare_refl].
  revert b. induction a as [|x a IH]; intros [|y b]; simpl; try discriminate;
    [reflexivity|].
  destruct (byte_to_Z x ?= byte_to_Z y) eqn:Hxy; try discriminate.
  apply Z.compare_eq in Hxy. apply byte_to_Z_inj in Hxy. subst y.
  intros Hrest. f_equal. now apply IH.
Qed.

Lemma bytes_Compare_antisym (a b : list byte) :
  bytes_Compare b a = CompOpp (bytes_Compare a b).
Proof.
  revert b. induction a as [|x a IH]; intros [|y b]; simpl; try reflexivity.
  rewrite (Z.compare_antisym (byte_to_Z x) (byte_to_Z y)).
  destruct (byte_to_Z x ?= byte_to_Z y); simpl; [apply IH | reflexivity..].
Qed.

Lemma bytes_Compare_lt_trans (a b c : list byte) :
  bytes_Compare a b = Lt -> bytes_Compare b c = Lt -> bytes_Compare a c = Lt.
Proof.
  revert b c. induction a as [|x a IH]; intros [|y b] [|z c]; simpl;
    try discriminate; try reflexivity.
  intros Hab Hbc.
  destruct (Z.compare_spec (byte_to_Z x) (byte_to_Z y)) as [Hxy|Hxy|Hxy];
    try discriminate;
    destruct (Z.compare_spec (byte_to_Z y) (byte_to_Z z)) as [Hyz|Hyz|Hyz];
    try discriminate;
    destruct (Z.compare_spec (byte_to_Z x) (byte_to_Z z)) as [Hxz|Hxz|Hxz];
    try lia; try reflexivity.
  now apply (IH b c).
Qed.

Lemma index_in_range {A : Type} (l : list A) (i : Z) (x : A) :
  index l i = Returns x <->
  0 <= i < len l /\ nth_error l (Z.to_nat i) = Some x.
Proof.
  unfold index. split.
  - destruct ((0 <=? i) && (i <? len l)) eqn:Hrange; [|discriminate].
    apply andb_true_iff in Hrange. destruct Hrange as [Hlo Hhi].
    apply Z.leb_le in Hlo. apply Z.ltb_lt in Hhi.
    destruct (nth_error l (Z.to_nat i)); [|discriminate].
    intros Heq. injection Heq as ->. split; [lia | reflexivity].
  - intros [[Hlo Hhi] Hnth].
    apply Z.leb_le in Hlo. apply Z.ltb_lt in Hhi.
    now rewrite Hlo, Hhi, Hnth.
Qed.

Lemma index_out_of_range {A : Type} (l : list A) (i : Z) :
  i < 0 \/ len l <= i -> index l i = Panics "index out of range".
Proof.
  intros Hout. unfold index.
  replace ((0 <=? i) && (i <? len l)) with false; [reflexivity|].
  symmetry. apply andb_false_iff.
  destruct Hout; [left; apply Z.leb_gt | right; apply Z.ltb_ge]; lia.
Qed.

Lemma index_returns {A : Type} (l : list A) (i : Z) :
  0 <= i < len l -> exists x, index l i = Returns x.
Proof.
  intros Hrange.
  destruct (nth_error l (Z.to_nat i)) as [x|] eqn:Hnth.
  - exists x. apply index_in_range. now split.
  - apply nth_error_None in Hnth. unfold len in Hrange. lia.
Qed.

Lemma nth_error_assign {A : Type} (l : list A) (i : Z) (x : A) (n : nat) :
  0 <= i < len l ->
  nth_error (assign l i x) n =
    if Nat.eqb n (Z.to_nat i) then Some x else nth_error l n.
Proof.
  intros Hrange. unfold assign, len in *.
  assert (Hfirst : List.length (firstn (Z.to_nat i) l) = Z.to_nat i)
    by (rewrite length_firstn; lia).
  destruct (Nat.eqb n (Z.to_nat i)) eqn:Heq.
  - apply Nat.eqb_eq in Heq. subst n.
    rewrite nth_error_app2 by lia. rewrite Hfirst, Nat.sub_diag. reflexivity.
  - apply Nat.eqb_neq in Heq.
    destruct (Nat.lt_ge_cases n (Z.to_nat i)) as [Hlt | Hge].
    + rewrite nth_error_app1 by lia. rewrite nth_error_firstn.
      apply Nat.ltb_lt in Hlt. now rewrite Hlt.
    + rewrite nth_error_app2 by lia. rewrite Hfirst.
      destruct (n - Z.to_nat i)%nat as [|m] eqn:Hm; [lia|].
      cbn [nth_error]. rewrite nth_error_skipn. f_equal. lia.
Qed.

Lemma len_assign {A : Type} (l : list A) (i : Z) (x : A) :
  0 <= i < len l -> len (assign l i x) = len l.
Proof.
  intros Hrange. unfold assign, len in *.
  rewrite length_app, length_firstn. cbn [List.length].
  rewrite length_skipn. lia.
Qed.

(** X6. [Less] is a strict order on the elements of the slice: no element
    is less than itself, two elements are never less than each other, less
    is transitive, and two elements of which neither is less than the other
    are the same bytes.  An index out of range, the first or the second,
    makes [Less] panic. *)
Theorem Less_strict_order (l : LexicalOrderedByteSlices) (i j k : Z) :
  LexicalOrderedByteSlices_Less l i i <> Returns true /\
  (LexicalOrderedByteSlices_Less l i j = Returns true ->
   LexicalOrderedByteSlices_Less l j i = Returns false) /\
  (LexicalOrderedByteSlices_Less l i j = Returns true ->
   LexicalOrderedByteSlices_Less l j k = Returns true ->
   LexicalOrderedByteSlices_Less l i k = Returns true) /\
  (LexicalOrderedByteSlices_Less l i j = Returns false ->
   LexicalOrderedByteSlices_Less l j i = Returns false ->
   index l i = index l j) /\
  (i < 0 \/ LexicalOrderedByteSlices_Len l <= i \/
   j < 0 \/ LexicalOrderedByteSlices_Len l <= j ->
   LexicalOrderedByteSlices_Less l i j = Panics "index out of range").
Proof.
  unfold LexicalOrderedByteSlices_Less, LexicalOrderedByteSlices_Len.
  repeat split.
  - destruct (index l i) as [a|]; cbn [bind]; [|discriminate].
    rewrite bytes_Compare_refl. discriminate.
  - destruct (index l i) as [a|]; cbn [bind]; [|discriminate].
    destruct (index l j) as [b|]; cbn [bind]; [|discriminate].
    rewrite (bytes_Compare_antisym a b).
    destruct (bytes_Compare a b); try discriminate. reflexivity.
  - destruct (index l i) as [a|]; cbn [bind]; [|discriminate].
    destruct (index l j) as [b|]; cbn [bind]; [|discriminate].
    destruct (index l k) as [c|]; cbn [bind]; [|discriminate].
    destruct (bytes_Compare a b) eqn:Hab; try discriminate.
    destruct (bytes_Compare b c) eqn:Hbc; try discriminate.
    now rewrite (bytes_Compare_lt_trans a b c Hab Hbc).
  - destruct (index l i) as [a|]; cbn [bind]; [|discriminate].
    destruct (index l j) as [b|]; cbn [bind]; [|discriminate].
    rewrite (bytes_Compare_antisym a b).
    destruct (bytes_Compare a b) eqn:Hab; try discriminate.
    apply bytes_Compare_eq in Hab. now subst b.
  - intros Hout.
    destruct (Z.lt_ge_cases i 0) as [Hineg | Hinonneg];
      [now rewrite index_out_of_range by lia|].
    destruct (Z.lt_ge_cases i (len l)) as [Hiin | Hiout];
      [|now rewrite index_out_of_range by lia].
    destruct (index_returns l i (conj Hinonneg Hiin)) as [a ->]. cbn [bind].
    now rewrite index_out_of_range by lia.
Qed.

Lemma Less_strict_order_witness :
  LexicalOrderedByteSlices_Less [[x01]; [x01; x00]; [x02]] 0 1 = Returns true /\
  LexicalOrderedByteSlices_Less [[x01]; [x01; x00]; [x02]] 1 0 = Returns false /\
  LexicalOrderedByteSlices_Less [[x01]; [x01; x00]; [x02]] 0 2 = Returns true /\
  LexicalOrderedByteSlices_Less [[x01]; [x01; x00]; [x02]] 3 0 =
    Panics "index out of range" /\
  LexicalOrderedByteSlices_Less [[x01]; [x01; x00]; [x02]] 0 3 =
    Panics "index out of range".
Proof.
  destruct (Less_strict_order [[x01]; [x01; x00]; [x02]] 0 1 2)
    as [_ [Hasym [Htrans _]]].
  destruct (Less_strict_order [[x01]; [x01; x00]; [x02]] 3 0 0)
    as [_ [_ [_ [_ Hfirst]]]].
  destruct (Less_strict_order [[x01]; [x01; x00]; [x02]] 0 3 0)
    as [_ [_ [_ [_ Hsecond]]]].
  split; [reflexivity|].
  split; [apply Hasym; reflexivity|].
  split; [apply Htrans; reflexivity|].
  split.
  - apply Hfirst. right. left. vm_compute. discriminate.
  - apply Hsecond. right. right. right. vm_compute. discriminate.
Defined.

(** X7. [Swap] on two indices in range exchanges the two elements and
    leaves every other element and the length as they were; a second
    [Swap] of the same indices restores the slice.  An index out of range
    makes [Swap] panic. *)
Theorem Swap_exchanges (l : LexicalOrderedByteSlices) (i j : Z) :
  (0 <= i < len l -> 0 <= j < len l ->
   exists l' : LexicalOrderedByteSlices,
     LexicalOrderedByteSlices_Swap l i j = Returns l' /\
     LexicalOrderedByteSlices_Len l' = LexicalOrderedByteSlices_Len l /\
     index l' i = index l j /\
     index l' j = index l i /\
     (forall k : Z, k <> i -> k <> j -> index l' k = index l k) /\
     LexicalOrderedByteSlices_Swap l' i j = Returns l) /\
  (i < 0 \/ len l <= i \/ j < 0 \/ len l <= j ->
   LexicalOrderedByteSlices_Swap l i j = Panics "index out of range").
Proof.
  assert (Hidx : forall (m m' : LexicalOrderedByteSlices) (p q : Z),
             len m = len m' ->
             nth_error m (Z.to_nat p) = nth_error m' (Z.to_nat q) ->
             0 <= p < len m -> 0 <= q < len m' ->
             index m p = index m' q).
  { intros m m' p q Hlen Hnth Hp Hq. unfold index.
    replace ((0 <=? p) && (p <? len m)) with true
      by (symmetry; apply andb_true_iff; split;
          [apply Z.leb_le | apply Z.ltb_lt]; lia).
    replace ((0 <=? q) && (q <? len m')) with true
      by (symmetry; apply andb_true_iff; split;
          [apply Z.leb_le | apply Z.ltb_lt]; lia).
    now rewrite Hnth. }
  unfold LexicalOrderedByteSlices_Swap, LexicalOrderedByteSlices_Len. split.
  - intros Hi Hj.
    destruct (index_returns l i Hi) as [a Ha].
    destruct (index_returns l j Hj) as [b Hb].
    rewrite Ha, Hb. cbn [bind].
    pose proof (proj2 (proj1 (index_in_range l i a) Ha)) as Hna.
    pose proof (proj2 (proj1 (index_in_range l j b) Hb)) as Hnb.
    assert (Hlen1 : len (assign l i b) = len l) by now apply len_assign.
    assert (Hlen2 : len (assign (assign l i b) j a) = len l)
      by (rewrite len_assign; lia).
    assert (Hnth : forall n : nat,
               nth_error (assign (assign l i b) j a) n =
                 if Nat.eqb n (Z.to_nat j) then Some a
                 else if Nat.eqb n (Z.to_nat i) then Some b
                 else nth_error l n).
    { intros n. rewrite nth_error_assign by lia.
      destruct (Nat.eqb n (Z.to_nat j)); [reflexivity|].
      now rewrite nth_error_assign by lia. }
    exists (assign (assign l i b) j a).
    split; [reflexivity|]. split; [exact Hlen2|].
    split; [|split; [|split]].
    + apply index_in_range. split; [lia|]. rewrite Hnth.
      destruct (Nat.eqb (Z.to_nat i) (Z.to_nat j)) eqn:Hij.
      * apply Nat.eqb_eq in Hij. rewrite Hij in Hna. congruence.
      * now rewrite Nat.eqb_refl.
    + apply index_in_range. split; [lia|]. rewrite Hnth.
      now rewrite Nat.eqb_refl.
    + intros k Hki Hkj.
      destruct (Z.lt_ge_cases k 0) as [Hneg | Hnonneg].
      { rewrite !index_out_of_range by lia. reflexivity. }
      destruct (Z.lt_ge_cases k (len l)) as [Hin | Hout].
      * apply Hidx; try lia. rewrite Hnth.
        replace (Nat.eqb (Z.to_nat k) (Z.to_nat j)) with false
          by (symmetry; apply Nat.eqb_neq; lia).
        replace (Nat.eqb (Z.to_nat k) (Z.to_nat i)) with false
          by (symmetry; apply Nat.eqb_neq; lia).
        reflexivity.
      * rewrite !index_out_of_range by lia. reflexivity.
    + assert (Hi' : index (assign (assign l i b) j a) i = Returns b).
      { apply index_in_range. split; [lia|]. rewrite Hnth.
        destruct (Nat.eqb (Z.to_nat i) (Z.to_nat j)) eqn:Hij.
        - apply Nat.eqb_eq in Hij. rewrite Hij in Hna. congruence.
        - now rewrite Nat.eqb_refl. }
      assert (Hj' : index (assign (assign l i b) j a) j = Returns a).
      { apply index_in_range. split; [lia|]. rewrite Hnth.
        now rewrite Nat.eqb_refl. }
      rewrite Hi', Hj'. cbn [bind].
      apply (f_equal (@Returns LexicalOrderedByteSlices)).
      apply nth_error_ext. intros n.
      rewrite nth_error_assign by (rewrite len_assign; lia).
      rewrite nth_error_assign by lia. rewrite Hnth.
      destruct (Nat.eqb n (Z.to_nat j)) eqn:Hnj.
      * apply Nat.eqb_eq in Hnj. subst n. now rewrite Hnb.
      * destruct (Nat.eqb n (Z.to_nat i)) eqn:Hni; [|reflexivity].
        apply Nat.eqb_eq in Hni. subst n. now rewrite Hna.
  - intros Hout.
    destruct (Z.lt_ge_cases i 0) as [Hineg | Hinonneg];
      [now rewrite index_out_of_range by lia|].
    destruct (Z.lt_ge_cases i (len l)) as [Hiin | Hiout];
      [|now rewrite index_out_of_range by lia].
    destruct (index_returns l i (conj Hinonneg Hiin)) as [a ->]. cbn [bind].
    now rewrite index_out_of_range by lia.
Qed.

Lemma Swap_exchanges_witness :
  exists l' : LexicalOrderedByteSlices,
    LexicalOrderedByteSlices_Swap [[x02]; [x01]; [x03]] 0 1 = Returns l' /\
    LexicalOrderedByteSlices_Len l' = 3 /\
    index l' 0 = Returns [x01] /\
    index l' 1 = Returns [x02] /\
    (forall k : Z, k <> 0 -> k <> 1 ->
                   index l' k = index [[x02]; [x01]; [x03]] k) /\
    LexicalOrderedByteSlices_Swap l' 0 1 = Returns [[x02]; [x01]; [x03]].
Proof.
  apply (proj1 (Swap_exchanges [[x02]; [x01]; [x03]] 0 1)); vm_compute;
    split; congruence.
Defined.

(** ** The order check over a whole sequence *)

Lemma LexicalOrderFunc_calls_from (ar : ArrayRules) (elements : list (list byte)) :
  forall (p : list byte) (pi i : Z),
    (snd (LexicalOrderFunc_calls ar {| prev := Some p; prevIndex := pi |} i
            elements) = None <->
     in_lexical_order (p :: elements) = true) /\
    (forall err : error,
        snd (LexicalOrderFunc_calls ar {| prev := Some p; prevIndex := pi |} i
               elements) = Some err ->
        errors_Is err (ElementBytesLexicalOrderErr ar) = true).
Proof.
  induction elements as [|next elements IH]; intros p pi i.
  - cbn. split; [now split | discriminate].
  - cbn [LexicalOrderFunc_calls LexicalOrderFunc prev prevIndex in_lexical_order].
    destruct (bytes_Compare p next) eqn:Hcmp.
    + apply IH.
    + apply IH.
    + cbn [snd]. split.
      * split; discriminate.
      * intros err Heq. injection Heq as <-. apply errors_Is_wrapped.
Qed.

(** X8. The closure of [LexicalOrderValidator], called on the elements of a
    sequence in turn, returns no error exactly when no element compares
    greater than the one after it; equal neighbours are accepted.  The
    error it returns otherwise is the order error of the rules. *)
Theorem LexicalOrderValidator_accepts_iff (ar : ArrayRules) (i : Z)
    (elements : list (list byte)) :
  (snd (LexicalOrderFunc_calls ar LexicalOrderValidator i elements) = None <->
   in_lexical_order elements = true) /\
  (forall err : error,
      snd (LexicalOrderFunc_calls ar LexicalOrderValidator i elements) = Some err ->
      errors_Is err (ElementBytesLexicalOrderErr ar) = true).
Proof.
  destruct elements as [|first elements].
  - cbn. split; [now split | discriminate].
  - cbn [LexicalOrderFunc_calls LexicalOrderFunc LexicalOrderValidator prev].
    apply LexicalOrderFunc_calls_from.
Qed.

Lemma LexicalOrderValidator_accepts_iff_witness :
  snd (LexicalOrderFunc_calls entriesArrayBound LexicalOrderValidator 0
         [[x00; x05]; [x00; x05]; [x00; x06]]) = None /\
  errors_Is
    (fmt_Errorf "%w: element %d should have been before element %d"
       ErrEntriesOrderViolatesLexicalOrder [ArgInt 2; ArgInt 1])
    (ElementBytesLexicalOrderErr entriesArrayBound) = true.
Proof.
  split.
  - apply (proj1 (LexicalOrderValidator_accepts_iff entriesArrayBound 0
                    [[x00; x05]; [x00; x05]; [x00; x06]])).
    reflexivity.
  - apply (proj2 (LexicalOrderValidator_accepts_iff entriesArrayBound 0
                    [[x00; x05]; [x00; x06]; [x00; x05]])).
    reflexivity.
Defined.

(** ** Errors of the object primitive *)

Section ObjectErrors.

Context {M T : Type} `{Serializable M T}.
Variable Uvarint : list byte -> Z * Z * option error.

(** X9. [DeserializeObject] never returns an object or a count together
    with an error, and its error keeps its cause: an unreadable type is the
    error of the varint reader, an unknown type is the error of the
    selector unchanged, and a failed decode is the error of the entity, each
    in the sense of [errors.Is]. *)
Theorem DeserializeObject_error_cause
    (data : list byte) (deSeriMode : M) (serSel : SerializableSelectorFunc) :
  (forall (seri : iface T) (n : Z) (err : error),
      DeserializeObject Uvarint data deSeriMode serSel =
        Returns (seri, n, Some err) ->
      seri = None /\ n = 0) /\
  (forall (ty w : Z) (cause : error),
      Uvarint data = (ty, w, Some cause) ->
      exists err : error,
        DeserializeObject Uvarint data deSeriMode serSel =
          Returns (None, 0, Some err) /\
        errors_Is err cause = true) /\
  (forall (ty w : Z) (seri : iface T) (cause : error),
      Uvarint data = (ty, w, None) ->
      serSel ty = (seri, Some cause) ->
      DeserializeObject Uvarint data deSeriMode serSel =
        Returns (None, 0, Some cause)) /\
  (forall (ty w n : Z) (empty decoded : T) (cause : error),
      Uvarint data = (ty, w, None) ->
      serSel ty = (Some empty, None) ->
      Deserialize empty data deSeriMode = Returns (decoded, (n, Some cause)) ->
      exists err : error,
        DeserializeObject Uvarint data deSeriMode serSel =
          Returns (None, 0, Some err) /\
        errors_Is err cause = true).
Proof.
  unfold DeserializeObject. split; [|split; [|split]].
  - intros seri n err.
    destruct (Uvarint data) as [[ty w] [e|]];
      [intros Heq; injection Heq as <- <- _; now split|].
    destruct (serSel ty) as [seri' [e|]];
      [intros Heq; injection Heq as <- <- _; now split|].
    destruct seri' as [empty|]; [|discriminate].
    destruct (Deserialize empty data deSeriMode) as [[decoded [m [e|]]]|];
      cbn [bind]; try discriminate.
    intros Heq. injection Heq as <- <- _. now split.
  - intros ty w cause ->. eexists. split; [reflexivity|].
    apply errors_Is_wrapped.
  - intros ty w seri cause -> ->. reflexivity.
  - intros ty w n empty decoded cause -> -> ->. cbn [bind].
    eexists. split; [reflexivity | apply errors_Is_wrapped].
Qed.

End ObjectErrors.

(** A buffer too short for an entry: the error of the entry is still
    [ErrInvalidBytes] after the primitive wrapped it. *)
Lemma DeserializeObject_error_cause_witness :
  exists err : error,
    DeserializeObject Uvarint_model [x00] DeSeriModePerformValidation
      EntrySelector = Returns (None, 0, Some err) /\
    errors_Is err
      (fmt_Errorf "%w: data must be at least %d bytes long but is %d"
         ErrInvalidBytes [ArgInt 2; ArgInt 1]) = true.
Proof.
  refine (proj2 (proj2 (proj2 (DeserializeObject_error_cause Uvarint_model
            [x00] DeSeriModePerformValidation EntrySelector)))
            0 1 0 {| value := x00 |} {| value := x00 |} _ _ _ _);
    reflexivity.
Defined.

(** ** Arrays: what a successful decode returns *)

Lemma wrap_int_small (z : Z) : - 2 ^ 63 <= z < 2 ^ 63 -> wrap_int z = z.
Proof. intros Hz. unfold wrap_int. rewrite Z.mod_small; lia. Qed.

Section ArrayResults.

Context {M T : Type} `{Serializable M T}.
Variable Uvarint : list byte -> Z * Z * option error.

Lemma DeserializeObject_success_object
    (data : list byte) (deSeriMode : M) (serSel : SerializableSelectorFunc)
    (seri : iface T) (n : Z) :
  DeserializeObject Uvarint data deSeriMode serSel = Returns (seri, n, None) ->
  exists decoded : T, seri = Some decoded.
Proof.
  unfold DeserializeObject.
  destruct (Uvarint data) as [[ty w] [e|]]; [discriminate|].
  destruct (serSel ty) as [seri' [e|]]; [discriminate|].
  destruct seri' as [empty|]; [|discriminate].
  destruct (Deserialize empty data deSeriMode) as [[decoded [m [e|]]]|];
    cbn [bind]; try discriminate.
  intros Heq. injection Heq as <- _. now exists decoded.
Qed.

Lemma DeserializeArrayOfObjects_body_appends
    (data : list byte) (deSeriMode : M) (serSel : SerializableSelectorFunc)
    (arrayRules : option ArrayRules) (i : Z) (st st' : loop_state) :
  DeserializeArrayOfObjects_body Uvarint data deSeriMode serSel arrayRules i st
    = Returns (Next st') ->
  exists decoded : T, seris st' = seris st ++ [Some decoded].
Proof.
  unfold DeserializeArrayOfObjects_body.
  destruct (slice_from data (offset st)) as [rest|]; [|discriminate].
  cbn [bind].
  destruct (DeserializeObject Uvarint rest deSeriMode serSel)
    as [[[seri n] [err|]]|] eqn:Hdec; cbn [bind]; try discriminate.
  apply DeserializeObject_success_object in Hdec. destruct Hdec as [decoded ->].
  destruct (lexicalOrderValidator st) as [lov|];
    [destruct arrayRules as [ar|]|].
  - destruct (slice data (offset st) (int_add (offset st) n)) as [element|];
      [|discriminate].
    cbn [bind].
    destruct (LexicalOrderFunc ar lov i element) as [lov' [err|]];
      [discriminate|].
    intros Heq. injection Heq as <-. now exists decoded.
  - intros Heq. injection Heq as <-. now exists decoded.
  - intros Heq. injection Heq as <-. now exists decoded.
Qed.

Lemma DeserializeArrayOfObjects_loop_appends
    (remaining : nat) (data : list byte) (deSeriMode : M)
    (serSel : SerializableSelectorFunc) (arrayRules : option ArrayRules) :
  forall (i : Z) (st st' : loop_state),
    DeserializeArrayOfObjects_loop Uvarint remaining data deSeriMode serSel
      arrayRules i st = Returns (Next st') ->
    exists added : Serializables T,
      seris st' = seris st ++ added /\
      List.length added = remaining /\
      Forall (fun seri => seri <> None) added.
Proof.
  induction remaining as [|remaining IH]; intros i st st' Hloop.
  - injection Hloop as <-. exists []. rewrite app_nil_r. repeat split.
    constructor.
  - cbn [DeserializeArrayOfObjects_loop] in Hloop.
    destruct (DeserializeArrayOfObjects_body Uvarint data deSeriMode serSel
                arrayRules i st) as [[st1|r]|] eqn:Hbody;
      cbn [bind] in Hloop; try discriminate.
    apply DeserializeArrayOfObjects_body_appends in Hbody.
    destruct Hbody as [decoded Hst1].
    apply IH in Hloop. destruct Hloop as [added [Hseris [Hlen Hall]]].
    exists (Some decoded :: added). repeat split.
    + rewrite Hseris, Hst1, <- app_assoc. reflexivity.
    + cbn [List.length]. now rewrite Hlen.
    + constructor; [discriminate | exact Hall].
Qed.

(** X10. An array decode that succeeds returns as many elements as the
    prefix declares, read as an [int], and none of them is nil. *)
Theorem DeserializeArrayOfObjects_success_count
    (data : list byte) (deSeriMode : M) (serSel : SerializableSelectorFunc)
    (arrayRules : option ArrayRules) (seriCount w : Z)
    (result : Serializables T) (bytesRead : Z) :
  Uvarint data = (seriCount, w, None) ->
  DeserializeArrayOfObjects Uvarint data deSeriMode serSel arrayRules =
    Returns (result, bytesRead, None) ->
  List.length result = Z.to_nat (int_of_uint64 seriCount) /\
  Forall (fun seri => seri <> None) result.
Proof.
  intros Hcount. unfold DeserializeArrayOfObjects. rewrite Hcount.
  destruct (match arrayRules with
            | Some ar => CheckBounds ar seriCount
            | None => None
            end); [discriminate|].
  destruct (slice_from data w) as [objects|]; [|discriminate].
  cbn [bind].
  destruct (DeserializeArrayOfObjects_loop Uvarint
              (Z.to_nat (int_of_uint64 seriCount)) objects deSeriMode
              serSel arrayRules 0 (loop_start arrayRules))
    as [[st|r]|] eqn:Hloop; cbn [bind]; try discriminate.
  - apply DeserializeArrayOfObjects_loop_appends in Hloop.
    destruct Hloop as [added [Hseris [Hlen Hall]]].
    cbn [loop_start seris app] in Hseris.
    intros Heq. injection Heq as <- _. rewrite Hseris. now split.
  - apply DeserializeArrayOfObjects_loop_return in Hloop.
    destruct Hloop as [e ->]. discriminate.
Qed.

(** X11. A declared count that is not positive as an [int] (0, or 2^63 and
    more) gives an empty array and the width of the count for the bytes
    read: no element is decoded, whatever the selector. *)
Theorem DeserializeArrayOfObjects_no_elements
    (data : list byte) (deSeriMode : M) (serSel : SerializableSelectorFunc)
    (arrayRules : option ArrayRules) (seriCount w : Z) :
  Uvarint data = (seriCount, w, None) ->
  int_of_uint64 seriCount <= 0 ->
  match arrayRules with
  | Some ar => CheckBounds ar seriCount
  | None => None
  end = None ->
  0 <= w <= len data -> len data < 2 ^ 63 ->
  DeserializeArrayOfObjects Uvarint data deSeriMode serSel arrayRules =
    Returns ([], w, None).
Proof.
  intros Hcount Hint Hbounds Hw Hlen. unfold DeserializeArrayOfObjects.
  rewrite Hcount, Hbounds, slice_from_in_range by exact Hw.
  cbn [bind].
  replace (Z.to_nat (int_of_uint64 seriCount)) with 0%nat by lia.
  cbn [DeserializeArrayOfObjects_loop bind loop_start seris offset].
  unfold int_add. rewrite Z.add_0_l, Z.add_0_r.
  now rewrite !wrap_int_small by (rewrite ?wrap_int_small; lia).
Qed.

End ArrayResults.

Lemma DeserializeArrayOfObjects_success_count_witness :
  List.length [Some {| value := x05 |}; Some {| value := x05 |}] =
    Z.to_nat (int_of_uint64 2) /\
  Forall (fun seri : iface Entry => seri <> None)
    [Some {| value := x05 |}; Some {| value := x05 |}].
Proof.
  refine (DeserializeArrayOfObjects_success_count Uvarint_model
            [x02; x00; x05; x00; x05] DeSeriModePerformValidation
            EntrySelector (Some entriesArrayBound) 2 1 _ 5 _ _); reflexivity.
Defined.

(** The counts 0 and 2^63, on the stub family. *)
Lemma DeserializeArrayOfObjects_no_elements_witness :
  DeserializeArrayOfObjects Uvarint_model [x00; x07] DeSeriModeNoValidation
    StubSelector None = Returns ([], 1, None) /\
  DeserializeArrayOfObjects Uvarint_model
    [x80; x80; x80; x80; x80; x80; x80; x80; x80; x01; x07]
    DeSeriModeNoValidation StubSelector None = Returns ([], 10, None).
Proof.
  split.
  - refine (DeserializeArrayOfObjects_no_elements Uvarint_model [x00; x07]
              DeSeriModeNoValidation StubSelector None 0 1 _ _ _ _ _);
      vm_compute; try reflexivity; try (split; discriminate); discriminate.
  - refine (DeserializeArrayOfObjects_no_elements Uvarint_model
              [x80; x80; x80; x80; x80; x80; x80; x80; x80; x01; x07]
              DeSeriModeNoValidation StubSelector None (2 ^ 63) 10 _ _ _ _ _);
      vm_compute; try reflexivity; try (split; discriminate); discriminate.
Defined.

(** ** Type headers *)

(** X12. [ReadTypeAndAdvance] asks one reader for the width of the type:
    [checkType] when the lowest bit of the mode is set, the varint reader
    otherwise, and never the other one.  When that reader returns an error,
    the result is no buffer, a count of 0 and that error.  When it returns
    a width within the buffer, the result is the buffer without its first
    bytes of that width, and the width, so that the lengths add up.  A
    width outside the buffer makes the slice expression panic. *)
Theorem ReadTypeAndAdvance_advances
    (Uvarint : list byte -> Z * Z * option error)
    (checkType : list byte -> Z -> Z * option error)
    (data : list byte) (shouldType : Z) (deSeriMode : DeSerializationMode)
    (value typeBytesRead : Z) (err : option error) :
  (Z.odd deSeriMode = true /\
   checkType data shouldType = (typeBytesRead, err)) \/
  (Z.even deSeriMode = true /\
   Uvarint data = (value, typeBytesRead, err)) ->
  (forall cause : error,
      err = Some cause ->
      ReadTypeAndAdvance Uvarint checkType data shouldType deSeriMode =
        Returns ([], 0, Some cause)) /\
  (err = None -> 0 <= typeBytesRead <= len data ->
   ReadTypeAndAdvance Uvarint checkType data shouldType deSeriMode =
     Returns (skipn (Z.to_nat typeBytesRead) data, typeBytesRead, None) /\
   len (skipn (Z.to_nat typeBytesRead) data) = len data - typeBytesRead) /\
  (err = None -> typeBytesRead < 0 \/ len data < typeBytesRead ->
   ReadTypeAndAdvance Uvarint checkType data shouldType deSeriMode =
     Panics "slice bounds out of range").
Proof.
  intros Hreader.
  assert (Hmode : HasMode deSeriMode DeSeriModePerformValidation
                  = Z.odd deSeriMode).
  { unfold HasMode, DeSeriModePerformValidation.
    change (Z.shiftl 1 0) with (Z.ones 1).
    rewrite Z.land_ones by lia. change (2 ^ 1) with 2.
    rewrite Zodd_mod. reflexivity. }
  assert (Hread :
    (if HasMode deSeriMode DeSeriModePerformValidation
     then checkType data shouldType
     else let '(_, n, e) := Uvarint data in (n, e)) = (typeBytesRead, err)).
  { rewrite Hmode. destruct Hreader as [[Hodd Hcheck] | [Heven Hvarint]].
    - now rewrite Hodd.
    - rewrite <- Z.negb_even, Heven. cbn [negb]. now rewrite Hvarint. }
  unfold ReadTypeAndAdvance. rewrite Hread. split; [|split].
  - intros cause ->. reflexivity.
  - intros -> Hrange. rewrite slice_from_in_range by exact Hrange.
    split; [reflexivity|]. rewrite len_skipn. lia.
  - intros -> Hout. unfold slice_from.
    replace ((0 <=? typeBytesRead) && (typeBytesRead <=? len data)) with false;
      [reflexivity|].
    symmetry. apply andb_false_iff.
    destruct Hout; [left; apply Z.leb_gt | right; apply Z.leb_gt]; lia.
Qed.

(** Without the validation flag the varint reader decides, whatever
    [checkType] would say; with it, the error of [checkType] is the
    result. *)
Lemma ReadTypeAndAdvance_advances_witness :
  ReadTypeAndAdvance Uvarint_model (fun _ _ => (0, Some ErrInvalidBytes))
    [x01; x07; x08] 1 DeSeriModeNoValidation =
    Returns ([x07; x08], 1, None) /\
  ReadTypeAndAdvance Uvarint_model (fun _ _ => (0, Some ErrInvalidBytes))
    [x01; x07; x08] 1 DeSeriModePerformValidation =
    Returns ([], 0, Some ErrInvalidBytes).
Proof.
  split.
  - refine (proj1 (proj1 (proj2 (ReadTypeAndAdvance_advances Uvarint_model
              (fun _ _ => (0, Some ErrInvalidBytes)) [x01; x07; x08] 1
              DeSeriModeNoValidation 1 1 None _)) _ _)).
    + right. split; reflexivity.
    + reflexivity.
    + vm_compute. split; discriminate.
  - refine (proj1 (ReadTypeAndAdvance_advances Uvarint_model
              (fun _ _ => (0, Some ErrInvalidBytes)) [x01; x07; x08] 1
              DeSeriModePerformValidation 0 0 (Some ErrInvalidBytes) _)
              ErrInvalidBytes _).
    + left. split; reflexivity.
    + reflexivity.
Defined.

Lemma PutUvarint_loop_length (k : nat) :
  forall (fuel : nat) (x : Z),
    0 <= x < 2 ^ (7 * (Z.of_nat k + 1)) ->
    (1 <= List.length (PutUvarint_loop fuel x) <= k + 1)%nat.
Proof.
  induction k as [|k IH]; intros fuel x Hx.
  - change (2 ^ (7 * (Z.of_nat 0 + 1))) with 128 in Hx.
    destruct fuel as [|fuel]; cbn [PutUvarint_loop]; [cbn; lia|].
    replace (x >=? 128) with false by (symmetry; rewrite Z.geb_leb;
                                        apply Z.leb_gt; lia).
    cbn. lia.
  - destruct fuel as [|fuel]; cbn [PutUvarint_loop]; [cbn; lia|].
    destruct (x >=? 128) eqn:Hbig; [|cbn; lia].
    cbn [List.length].
    assert (Hshift : 0 <= Z.shiftr x 7 < 2 ^ (7 * (Z.of_nat k + 1))).
    { rewrite Z.shiftr_div_pow2 by lia. split.
      - apply Z.div_pos; lia.
      - apply Z.div_lt_upper_bound; [lia|].
        rewrite <- Z.pow_add_r by lia.
        replace (7 + 7 * (Z.of_nat k + 1)) with (7 * (Z.of_nat (S k) + 1))
          by lia.
        apply Hx. }
    specialize (IH fuel (Z.shiftr x 7) Hshift). lia.
Qed.

(** X13. [WriteTypeHeader] puts the varint of the type, between one and ten
    bytes, into the buffer; the array it returns holds the same bytes in
    front, and the count is their number.  A type below 128 is written as
    the single byte of its value. *)
Theorem WriteTypeHeader_writes_varint (ty : Z) :
  let '(b, varintBuf, bytesWritten) := WriteTypeHeader ty in
  b = PutUvarint ty /\
  bytesWritten = len b /\
  1 <= bytesWritten <= MaxVarintLen64 /\
  len varintBuf = MaxVarintLen64 /\
  firstn (Z.to_nat bytesWritten) varintBuf = b /\
  (0 <= ty < 128 -> b = [byte_of_Z ty]).
Proof.
  unfold WriteTypeHeader.
  assert (Hlen : (1 <= List.length (PutUvarint ty) <= 10)%nat).
  { unfold PutUvarint. apply (PutUvarint_loop_length 9).
    pose proof (Z.mod_pos_bound ty (2 ^ 64)) as Hmod.
    change (2 ^ (7 * (Z.of_nat 9 + 1))) with (2 ^ 64 * 64). lia. }
  assert (Hcopy : copy (zero_bytes (Z.to_nat MaxVarintLen64)) (PutUvarint ty) =
                  PutUvarint ty
                    ++ skipn (List.length (PutUvarint ty)) (repeat x00 10)).
  { unfold copy, zero_bytes. change (Z.to_nat MaxVarintLen64) with 10%nat.
    rewrite repeat_length. f_equal. apply firstn_all2. lia. }
  assert (Hfirst : firstn (Z.to_nat (len (PutUvarint ty)))
                     (copy (zero_bytes (Z.to_nat MaxVarintLen64))
                        (PutUvarint ty)) = PutUvarint ty).
  { rewrite Hcopy. unfold len. rewrite Nat2Z.id.
    rewrite firstn_app, Nat.sub_diag, firstn_all. cbn [firstn].
    apply app_nil_r. }
  cbn [app]. rewrite Hfirst. repeat split.
  - unfold len, MaxVarintLen64. lia.
  - unfold len, MaxVarintLen64. lia.
  - rewrite Hcopy. unfold len, MaxVarintLen64.
    rewrite length_app, length_skipn, repeat_length. lia.
  - intros Hty. unfold PutUvarint.
    rewrite Z.mod_small by lia.
    change (Z.to_nat MaxVarintLen64) with 10%nat. cbn [PutUvarint_loop].
    replace (ty >=? 128) with false
      by (symmetry; rewrite Z.geb_leb; apply Z.leb_gt; lia).
    reflexivity.
Qed.

Lemma WriteTypeHeader_writes_varint_witness :
  WriteTypeHeader 1 = ([x01], x01 :: repeat x00 9, 1) /\
  [x01] = [byte_of_Z 1].
Proof.
  pose proof (WriteTypeHeader_writes_varint 1) as Hheader.
  change (WriteTypeHeader 1) with ([x01], x01 :: repeat x00 9, 1) in Hheader.
  destruct Hheader as [_ [_ [_ [_ [_ Hsingle]]]]].
  split; [reflexivity | apply Hsingle; lia].
Defined.

(** ** The unsigned transaction, continued *)

Section TransactionErrors.

Context {T : Type} `{Serializable bool T}.

Variable InputsValidatorFunc : Type.
Variable ValidateInputs :
  Serializables T -> list InputsValidatorFunc -> option error.
Variable InputsUTXORefsUniqueValidator : InputsValidatorFunc.
Variable OutputsValidatorFunc : Type.
Variable ValidateOutputs :
  Serializables T -> list OutputsValidatorFunc -> option error.
Variable OutputsAddrUniqueValidator : OutputsValidatorFunc.

(** The loop over elements stops at the first element that fails to
    serialize and reports its index. *)
Lemma Serialize_elements_first_error (format : string) (skipValidation : bool)
    (pre : Serializables T) (sers : list (list byte)) :
  Forall2 (serializes_to skipValidation) pre sers ->
  forall (x : iface T) (post : Serializables T) (ser : list byte)
         (err : error) (i : Z) (b : list byte),
    call_Serialize x skipValidation = Returns (ser, Some err) ->
    Serialize_elements format (pre ++ x :: post) i skipValidation b =
      Returns ([], Some (fmt_Errorf format err [ArgInt (i + len pre)])).
Proof.
  induction 1 as [|y s pre sers Hy _ IH]; intros x post ser err i b Hx.
  - cbn [app Serialize_elements]. rewrite Hx. cbn [bind].
    change (len (@nil (iface T))) with 0. now rewrite Z.add_0_r.
  - cbn [app Serialize_elements]. red in Hy. rewrite Hy. cbn [bind].
    rewrite (IH x post ser err (i + 1) (b ++ s) Hx).
    replace (i + 1 + len pre) with (i + len (y :: pre))
      by (unfold len; cbn [List.length]; lia).
    reflexivity.
Qed.

(** X14. When the elements before an input serialize and that input fails,
    [Serialize] returns no bytes and an error that names the index of the
    input and wraps its error; the same holds for an output once all inputs
    serialized.  Elements after the failing one are not serialized. *)
Theorem Serialize_reports_failing_index
    (u : UnsignedTransaction) (skipValidation : bool)
    (pre post : Serializables T) (x : iface T) (sers : list (list byte))
    (ser : list byte) (err : error) :
  (skipValidation = false ->
   ValidateInputs (Inputs u) [InputsUTXORefsUniqueValidator] = None /\
   ValidateOutputs (Outputs u) [OutputsAddrUniqueValidator] = None) ->
  Forall2 (serializes_to skipValidation) pre sers ->
  call_Serialize x skipValidation = Returns (ser, Some err) ->
  (Inputs u = pre ++ x :: post ->
   UnsignedTransaction_Serialize InputsValidatorFunc ValidateInputs
     InputsUTXORefsUniqueValidator OutputsValidatorFunc ValidateOutputs
     OutputsAddrUniqueValidator u skipValidation =
     Returns ([], Some (fmt_Errorf "unable to serialize input at index %d: %w"
                          err [ArgInt (len pre)]))) /\
  (forall inputSers : list (list byte),
      Forall2 (serializes_to skipValidation) (Inputs u) inputSers ->
      Outputs u = pre ++ x :: post ->
      UnsignedTransaction_Serialize InputsValidatorFunc ValidateInputs
        InputsUTXORefsUniqueValidator OutputsValidatorFunc ValidateOutputs
        OutputsAddrUniqueValidator u skipValidation =
        Returns ([], Some (fmt_Errorf
                             "unable to serialize output at index %d: %w"
                             err [ArgInt (len pre)]))).
Proof.
  intros Hvalid Hpre Hx.
  assert (Hcheck :
    (if negb skipValidation
     then match ValidateInputs (Inputs u) [InputsUTXORefsUniqueValidator] with
          | Some err => Some err
          | None => ValidateOutputs (Outputs u) [OutputsAddrUniqueValidator]
          end
     else None) = None).
  { destruct skipValidation; [reflexivity|].
    destruct (Hvalid eq_refl) as [Hin Hout].
    cbn [negb]. now rewrite Hin, Hout. }
  split.
  - intros Hinputs. unfold UnsignedTransaction_Serialize.
    rewrite Hcheck, Hinputs.
    rewrite (Serialize_elements_first_error _ _ _ _ Hpre x post ser err 0 _ Hx).
    reflexivity.
  - intros inputSers Hinputs Houtputs. unfold UnsignedTransaction_Serialize.
    rewrite Hcheck.
    rewrite (Serialize_elements_all _ _ _ _ Hinputs). cbn [bind].
    rewrite Houtputs.
    rewrite (Serialize_elements_first_error _ _ _ _ Hpre x post ser err 0 _ Hx).
    reflexivity.
Qed.

End TransactionErrors.

Import EntryTransactions.

(** The second of three inputs fails to serialize. *)
Lemma Serialize_reports_failing_index_witness :
  UnsignedTransaction_Serialize unit (fun _ _ => None) tt unit
    (fun _ _ => None) tt
    {| Inputs := [Some {| checked := x05 |}; Some {| checked := x00 |};
                  Some {| checked := x06 |}];
       Outputs := [];
       Payload := None |} false =
    Returns ([], Some (fmt_Errorf "unable to serialize input at index %d: %w"
                         ErrInvalidBytes [ArgInt 1])).
Proof.
  refine (proj1 (Serialize_reports_failing_index unit (fun _ _ => None) tt
            unit (fun _ _ => None) tt
            {| Inputs := [Some {| checked := x05 |}; Some {| checked := x00 |};
                          Some {| checked := x06 |}];
               Outputs := [];
               Payload := None |} false
            [Some {| checked := x05 |}] [Some {| checked := x06 |}]
            (Some {| checked := x00 |}) [[x00; x05]] [] ErrInvalidBytes _ _ _)
            _).
  - intros _. split; reflexivity.
  - repeat constructor.
  - reflexivity.
  - reflexivity.
Defined.

Section TransactionDecoding.

Context {T : Type} `{Serializable bool T}.
Variable Uvarint : list byte -> Z * Z * option error.
Variable checkType : list byte -> byte -> option error.
Variable InputSelector : @SerializableSelectorFunc T.
Variable inputsArrayBound : ArrayRules.
Variable OutputSelector : @SerializableSelectorFunc T.
Variable outputsArrayBound : ArrayRules.
Variable InputsValidatorFunc : Type.
Variable ValidateInputs :
  Serializables T -> list InputsValidatorFunc -> option error.
Variable InputsUTXORefsUniqueValidator : InputsValidatorFunc.
Variable OutputsValidatorFunc : Type.
Variable ValidateOutputs :
  Serializables T -> list OutputsValidatorFunc -> option error.
Variable OutputsAddrUniqueValidator : OutputsValidatorFunc.
Variable ReadUvarint : list byte -> Z * Z * option error.

Let decode : UnsignedTransaction -> list byte -> bool
             -> outcome (UnsignedTransaction * (Z * option error)) :=
  UnsignedTransaction_Deserialize Uvarint checkType InputSelector
    inputsArrayBound OutputSelector outputsArrayBound InputsValidatorFunc
    ValidateInputs InputsUTXORefsUniqueValidator OutputsValidatorFunc
    ValidateOutputs OutputsAddrUniqueValidator ReadUvarint.

(** X15. [Deserialize] never assigns the payload: whatever the buffer
    holds, the transaction it was called on has the payload it had before
    the call.  An error comes with a count of 0. *)
Theorem Deserialize_never_sets_payload
    (u u' : UnsignedTransaction) (data : list byte) (skipValidation : bool)
    (bytesRead : Z) (err : option error) :
  decode u data skipValidation = Returns (u', (bytesRead, err)) ->
  Payload u' = Payload u /\ (err <> None -> bytesRead = 0).
Proof.
  unfold decode, UnsignedTransaction_Deserialize.
  destruct (if negb skipValidation
            then match checkType data TransactionUnsigned with
                 | Some e => Some (fmt_Errorf
                     "unable to deserialize unsigned transaction: %w" e [])
                 | None => None
                 end
            else None) as [e|];
    [intros Heq; injection Heq as <- <- <-; now split|].
  destruct (slice_from data OneByte) as [d1|]; [|discriminate]. cbn [bind].
  destruct (DeserializeArrayOfObjects Uvarint d1 skipValidation InputSelector
              (Some inputsArrayBound)) as [[[inputs n1] [e|]]|];
    cbn [bind]; try discriminate;
    [intros Heq; injection Heq as <- <- <-; now split|].
  destruct (if negb skipValidation
            then ValidateInputs inputs [InputsUTXORefsUniqueValidator]
            else None) as [e|];
    [intros Heq; injection Heq as <- <- <-; now split|].
  destruct (slice_from d1 n1) as [d2|]; [|discriminate]. cbn [bind].
  destruct (DeserializeArrayOfObjects Uvarint d2 skipValidation OutputSelector
              (Some outputsArrayBound)) as [[[outputs n2] [e|]]|];
    cbn [bind]; try discriminate;
    [intros Heq; injection Heq as <- <- <-; now split|].
  destruct (if negb skipValidation
            then ValidateOutputs outputs [OutputsAddrUniqueValidator]
            else None) as [e|];
    [intros Heq; injection Heq as <- <- <-; now split|].
  destruct (slice_from d2 n2) as [d3|]; [|discriminate]. cbn [bind].
  destruct (slice d3 0 MaxVarintLen64) as [head|]; [|discriminate].
  cbn [bind].
  destruct (ReadUvarint head) as [[payloadLength pw] [e|]];
    [intros Heq; injection Heq as <- <- <-; now split|].
  destruct (payloadLength =? 0);
    [intros Heq; injection Heq as <- <- <-; now split|].
  destruct (slice_from d3 pw) as [d4|]; [|discriminate]. cbn [bind].
  destruct (index d4 0); [|discriminate]. cbn [bind].
  intros Heq. injection Heq as <- <- <-. now split.
Qed.

(** X16. The array rules of the inputs are applied also when validation is
    skipped: a declared input count that the rules refuse makes
    [Deserialize] fail with the error of the bound check, and the
    transaction is left as it was. *)
Theorem Deserialize_checks_bounds_without_validation
    (u : UnsignedTransaction) (data rest : list byte) (seriCount w : Z)
    (err : error) :
  slice_from data OneByte = Returns rest ->
  Uvarint rest = (seriCount, w, None) ->
  CheckBounds inputsArrayBound seriCount = Some err ->
  decode u data true = Returns (u, (0, Some err)).
Proof.
  intros Hrest Hcount Hcheck.
  unfold decode, UnsignedTransaction_Deserialize. cbn [negb].
  rewrite Hrest. cbn [bind].
  now rewrite (DeserializeArrayOfObjects_bounds_error Uvarint rest true
                 InputSelector inputsArrayBound seriCount w err Hcount Hcheck).
Qed.

(** X17. A decode that fails in the outputs has already assigned the
    inputs: the transaction keeps its old outputs and payload and holds the
    inputs just decoded. *)
Theorem Deserialize_failure_keeps_decoded_inputs
    (u : UnsignedTransaction) (data d1 d2 : list byte) (skipValidation : bool)
    (inputs outputs : Serializables T) (inputBytesRead n : Z) (err : error) :
  (skipValidation = false ->
   checkType data TransactionUnsigned = None /\
   ValidateInputs inputs [InputsUTXORefsUniqueValidator] = None) ->
  slice_from data OneByte = Returns d1 ->
  DeserializeArrayOfObjects Uvarint d1 skipValidation InputSelector
    (Some inputsArrayBound) = Returns (inputs, inputBytesRead, None) ->
  slice_from d1 inputBytesRead = Returns d2 ->
  DeserializeArrayOfObjects Uvarint d2 skipValidation OutputSelector
    (Some outputsArrayBound) = Returns (outputs, n, Some err) ->
  decode u data skipValidation =
    Returns ({| Inputs := inputs; Outputs := Outputs u; Payload := Payload u |},
             (0, Some err)).
Proof.
  intros Hvalid Hd1 Hinputs Hd2 Houtputs.
  unfold decode, UnsignedTransaction_Deserialize.
  replace (if negb skipValidation
           then match checkType data TransactionUnsigned with
                | Some e => Some (fmt_Errorf
                    "unable to deserialize unsigned transaction: %w" e [])
                | None => None
                end
           else None) with (@None error)
    by (destruct skipValidation; [reflexivity|];
        destruct (Hvalid eq_refl) as [-> _]; reflexivity).
  rewrite Hd1. cbn [bind]. rewrite Hinputs. cbn [bind].
  replace (if negb skipValidation
           then ValidateInputs inputs [InputsUTXORefsUniqueValidator]
           else None) with (@None error)
    by (destruct skipValidation; [reflexivity|];
        destruct (Hvalid eq_refl) as [_ ->]; reflexivity).
  rewrite Hd2. cbn [bind]. rewrite Houtputs. reflexivity.
Qed.

(** X18. A decode that succeeds assigns the decoded inputs and outputs and
    counts the type byte, both arrays and the length prefix of the payload.
    When the ten bytes that the length is read from can be sliced off after
    the outputs and at least one byte follows the prefix, a payload length
    other than 0 is added to the count as it is declared: the bytes of the
    payload are neither read nor compared with what the buffer holds. *)
Theorem Deserialize_counts_declared_payload
    (u : UnsignedTransaction) (data d1 d2 d3 head d4 : list byte)
    (skipValidation : bool) (inputs outputs : Serializables T)
    (inputBytesRead outputBytesRead payloadLength payloadLengthByteSize : Z)
    (first : byte) :
  (skipValidation = false ->
   checkType data TransactionUnsigned = None /\
   ValidateInputs inputs [InputsUTXORefsUniqueValidator] = None /\
   ValidateOutputs outputs [OutputsAddrUniqueValidator] = None) ->
  slice_from data OneByte = Returns d1 ->
  DeserializeArrayOfObjects Uvarint d1 skipValidation InputSelector
    (Some inputsArrayBound) = Returns (inputs, inputBytesRead, None) ->
  slice_from d1 inputBytesRead = Returns d2 ->
  DeserializeArrayOfObjects Uvarint d2 skipValidation OutputSelector
    (Some outputsArrayBound) = Returns (outputs, outputBytesRead, None) ->
  slice_from d2 outputBytesRead = Returns d3 ->
  slice d3 0 MaxVarintLen64 = Returns head ->
  ReadUvarint head = (payloadLength, payloadLengthByteSize, None) ->
  payloadLength <> 0 ->
  slice_from d3 payloadLengthByteSize = Returns (first :: d4) ->
  decode u data skipValidation =
    Returns ({| Inputs := inputs; Outputs := outputs; Payload := Payload u |},
             (int_add
                (int_add
                   (int_add (int_add OneByte inputBytesRead) outputBytesRead)
                   payloadLengthByteSize)
                (int_of_uint64 payloadLength),
              None)).
Proof.
  intros Hvalid Hd1 Hinputs Hd2 Houtputs Hd3 Hhead Hread Hlen Hd4.
  unfold decode, UnsignedTransaction_Deserialize.
  replace (if negb skipValidation
           then match checkType data TransactionUnsigned with
                | Some e => Some (fmt_Errorf
                    "unable to deserialize unsigned transaction: %w" e [])
                | None => None
                end
           else None) with (@None error)
    by (destruct skipValidation; [reflexivity|];
        destruct (Hvalid eq_refl) as [-> _]; reflexivity).
  rewrite Hd1. cbn [bind]. rewrite Hinputs. cbn [bind].
  replace (if negb skipValidation
           then ValidateInputs inputs [InputsUTXORefsUniqueValidator]
           else None) with (@None error)
    by (destruct skipValidation; [reflexivity|];
        destruct (Hvalid eq_refl) as [_ [-> _]]; reflexivity).
  rewrite Hd2. cbn [bind]. rewrite Houtputs. cbn [bind].
  replace (if negb skipValidation
           then ValidateOutputs outputs [OutputsAddrUniqueValidator]
           else None) with (@None error)
    by (destruct skipValidation; [reflexivity|];
        destruct (Hvalid eq_refl) as [_ [_ ->]]; reflexivity).
  rewrite Hd3. cbn [bind]. rewrite Hhead. cbn [bind]. rewrite Hread.
  apply Z.eqb_neq in Hlen. rewrite Hlen, Hd4. reflexivity.
Qed.

End TransactionDecoding.

(** A transaction that holds a payload decodes a buffer without one and
    keeps its payload. *)
Lemma Deserialize_never_sets_payload_witness :
  Payload {| Inputs := [Some {| value := x05 |}];
             Outputs := [];
             Payload := Some {| value := x09 |} |} =
  Payload {| Inputs := []; Outputs := []; Payload := Some {| value := x09 |} |}
  /\ ((@None error) <> None -> 6 = 0).
Proof.
  refine (Deserialize_never_sets_payload Uvarint_model checkFirstByte
            EntrySelector entriesArrayBound EntrySelector unboundedArray
            unit (fun _ _ => None) tt unit (fun _ _ => None) tt Uvarint_model
            {| Inputs := []; Outputs := [];
               Payload := Some {| value := x09 |} |}
            {| Inputs := [Some {| value := x05 |}]; Outputs := [];
               Payload := Some {| value := x09 |} |}
            [x00; x01; x00; x05; x00; x00;
             x09; x09; x09; x09; x09; x09; x09; x09; x09]
            false 6 None _).
  reflexivity.
Defined.

(** No input where the rules ask for one, validation skipped. *)
Lemma Deserialize_checks_bounds_without_validation_witness :
  decodeEntries {| Inputs := []; Outputs := []; Payload := None |}
    [x00; x00] true =
    Returns ({| Inputs := []; Outputs := []; Payload := None |},
             (0, Some (fmt_Errorf "%w: min is %d but count is %d"
                         ErrMinEntriesNotReached [ArgInt 1; ArgInt 0]))).
Proof.
  refine (Deserialize_checks_bounds_without_validation Uvarint_model
            checkFirstByte EntrySelector entriesArrayBound EntrySelector
            unboundedArray unit (fun _ _ => None) tt unit (fun _ _ => None) tt
            Uvarint_model
            {| Inputs := []; Outputs := []; Payload := None |}
            [x00; x00] [x00] 0 1 _ _ _ _); reflexivity.
Defined.

(** One input, then an output cut short. *)
Lemma Deserialize_failure_keeps_decoded_inputs_witness :
  decodeEntries {| Inputs := []; Outputs := []; Payload := None |}
    [x00; x01; x00; x05; x01; x00] false =
    Returns ({| Inputs := [Some {| value := x05 |}];
                Outputs := [];
                Payload := None |},
             (0, Some (fmt_Errorf "unable to deserialize %T: %w"
                         (fmt_Errorf
                            "%w: data must be at least %d bytes long but is %d"
                            ErrInvalidBytes [ArgInt 2; ArgInt 1])
                         [ArgType "*Entry"]))).
Proof.
  refine (Deserialize_failure_keeps_decoded_inputs Uvarint_model
            checkFirstByte EntrySelector entriesArrayBound EntrySelector
            unboundedArray unit (fun _ _ => None) tt unit (fun _ _ => None) tt
            Uvarint_model
            {| Inputs := []; Outputs := []; Payload := None |}
            [x00; x01; x00; x05; x01; x00] [x01; x00; x05; x01; x00]
            [x01; x00] false [Some {| value := x05 |}] [] 3 0 _ _ _ _ _ _).
  - intros _. split; reflexivity.
  - reflexivity.
  - reflexivity.
  - reflexivity.
  - reflexivity.
Defined.

(** A payload length of 100 in a buffer of 17 bytes: 108 bytes are
    reported. *)
Lemma Deserialize_counts_declared_payload_witness :
  len [x00; x01; x00; x05; x01; x00; x07; x64;
       x09; x09; x09; x09; x09; x09; x09; x09; x09] = 17 /\
  decodeEntries {| Inputs := []; Outputs := []; Payload := None |}
    [x00; x01; x00; x05; x01; x00; x07; x64;
     x09; x09; x09; x09; x09; x09; x09; x09; x09] false =
    Returns ({| Inputs := [Some {| value := x05 |}];
                Outputs := [Some {| value := x07 |}];
                Payload := None |}, (108, None)).
Proof.
  split; [reflexivity|].
  refine (Deserialize_counts_declared_payload Uvarint_model
            checkFirstByte EntrySelector entriesArrayBound EntrySelector
            unboundedArray unit (fun _ _ => None) tt unit (fun _ _ => None) tt
            Uvarint_model
            {| Inputs := []; Outputs := []; Payload := None |}
            [x00; x01; x00; x05; x01; x00; x07; x64;
             x09; x09; x09; x09; x09; x09; x09; x09; x09]
            [x01; x00; x05; x01; x00; x07; x64;
             x09; x09; x09; x09; x09; x09; x09; x09; x09]
            [x01; x00; x07; x64; x09; x09; x09; x09; x09; x09; x09; x09; x09]
            [x64; x09; x09; x09; x09; x09; x09; x09; x09; x09]
            [x64; x09; x09; x09; x09; x09; x09; x09; x09; x09]
            [x09; x09; x09; x09; x09; x09; x09; x09]
            false [Some {| value := x05 |}] [Some {| value := x07 |}]
            3 3 100 1 x09 _ _ _ _ _ _ _ _ _ _).
  - intros _. repeat split.
  - reflexivity.
  - reflexivity.
  - reflexivity.
  - reflexivity.
  - reflexivity.
  - reflexivity.
  - reflexivity.
  - discriminate.
  - reflexivity.
Defined.
